(** * cfme.physical.physical_server: the PhysicalServer entity and its collection

    A shallow embedding of [cfme/physical/physical_server.py].  The module
    drives a web UI, a management-system client, a database and an HTTPS
    endpoint; here every such interaction is an oracle query against an
    environment ([Env]) indexed by the number of interactions made so far, and
    the Python code becomes a program in a state-and-exception monad over a
    [World] holding the wall clock, that interaction counter and the
    chronological log of the interactions performed. *)

From Stdlib Require Import ZArith String Ascii List Lia DecimalString.
From stdpp Require Import base decidable option list strings gmap.

Import ListNotations.
Local Open Scope string_scope.

(** ** Python values, [str()], [int()] and [str.format] *)

(** The values that flow through [validate_stats]: what the UI accessors and
    the management-system client hand back. *)
Inductive value : Type :=
| VInt (z : Z)
| VStr (s : string).

#[global] Instance value_eq_dec : EqDecision value.
Proof. solve_decision. Defined.

(** [str(v)], as [str.format] applies it to a [{}] field. *)
Definition py_str (v : value) : string :=
  match v with
  | VInt z => NilZero.string_of_int (Z.to_int z)
  | VStr s => s
  end.

(** Python's whitespace, which [int()] strips on both sides of a string. *)
Definition is_space (c : ascii) : bool :=
  match nat_of_ascii c with
  | 9%nat | 10%nat | 11%nat | 12%nat | 13%nat | 32%nat => true
  | _ => false
  end.

Fixpoint lstrip (s : string) : string :=
  match s with
  | String c r => if is_space c then lstrip r else s
  | EmptyString => EmptyString
  end.

Definition strip (s : string) : string :=
  String.rev (lstrip (String.rev (lstrip s))).

Definition digit_of (c : ascii) : option Z :=
  let n := Z.of_nat (nat_of_ascii c) in
  if ((48 <=? n) && (n <=? 57))%Z then Some (n - 48)%Z else None.

Fixpoint parse_digits (acc : Z) (s : string) : option Z :=
  match s with
  | EmptyString => Some acc
  | String c r =>
      match digit_of c with
      | Some d => parse_digits (10 * acc + d)%Z r
      | None => None
      end
  end.

(** A decimal literal: an optional sign and at least one digit. *)
Definition parse_int (s : string) : option Z :=
  match strip s with
  | EmptyString => None
  | String "-" EmptyString | String "+" EmptyString => None
  | String "-" r => Z.opp <$> parse_digits 0%Z r
  | String "+" r => parse_digits 0%Z r
  | t => parse_digits 0%Z t
  end.

(** [int(v)]: [None] stands for the [ValueError] of a string that is not a
    decimal literal.  The literals recognised are the ones written in ASCII:
    an optional sign and digits, between ASCII whitespace.  Python's [int]
    accepts more (Unicode whitespace and digits, and in later versions
    digit-group underscores), so a [Some] is what [int] returns, while a
    [None] is its [ValueError] for text in ASCII without underscores. *)
Definition py_int (v : value) : option Z :=
  match v with
  | VInt z => Some z
  | VStr s => parse_int s
  end.

(** [tmpl.format(a1, a2, ...)] for templates whose fields are all written [{}]:
    each [{}] is replaced by the next argument; fields left without an
    argument are an [IndexError], here [None]. *)
Fixpoint format (tmpl : string) (args : list string) : option string :=
  match tmpl with
  | String "{" (String "}" r) =>
      match args with
      | a :: args' => String.append a <$> format r args'
      | [] => None
      end
  | String c r => String c <$> format r args
  | EmptyString => Some EmptyString
  end.

(** The templates of this module always receive as many arguments as they
    have fields. *)
Definition fmt (tmpl : string) (args : list string) : string :=
  default tmpl (format tmpl args).

(** ** Exceptions *)

(** The exception classes that occur in the module.  [StatsDoNotMatch],
    [HostStatsNotContains] and [ProviderHasNoProperty] carry the formatted
    message they are raised with. *)
Inductive exn : Type :=
| StatsDoNotMatch (msg : string)
| HostStatsNotContains (msg : string)
| ProviderHasNoProperty (msg : string)
| ItemNotFound
| TimedOutError
| KeyError (key : string)
| AttributeError (attr : string)
| ValueError
| TypeError
| ConnectionError
| RequestException.

#[global] Instance exn_eq_dec : EqDecision exn.
Proof. solve_decision. Defined.

(** How a call ends: it returns, raises, or -- for the polling loop only --
    is still running when the model's iteration bound is used up. *)
Inductive Res (A : Type) : Type :=
| Ok (a : A)
| Raise (e : exn)
| Diverged.
Arguments Ok {A} a.
Arguments Raise {A} e.
Arguments Diverged {A}.

(** ** The outside world *)

(** A provider CRUD object; the module only ever uses its name, its
    management-system client and its last refresh date. *)
Record Provider : Type := { provider_name : string }.

#[global] Instance Provider_eq_dec : EqDecision Provider.
Proof. solve_decision. Defined.

(** What one GET on the out-of-band endpoint ends in: a response, whose [ok]
    flag is given, [requests.exceptions.ConnectionError], or another
    exception of the HTTP library. *)
Inductive probe : Type :=
| Responded (ok : bool)
| ConnectionFailed
| RequestFailed.

(** The interactions the module performs, as they appear in the log;
    a query is logged together with the answer it received. *)
Inductive event : Type :=
| NavSelect (path : list string)
| EntityLookup (nm : string) (found : bool)
| EntityClick (nm : string)
| ItemSelect (button option : string) (handle_alert : bool)
| BrowserRefresh
| FlushWidgetCache
| ReadText (table field text : string)
| FlashDisplayed (shown : bool)
| LastRefreshDate (prov : string) (stamp : Z)
| MgmtStats (prov : string) (keys : list string) (requester : string)
| MgmtInventory (prov : string) (keys : list string) (requester : string)
| HttpGet (url : string) (verify : bool) (outcome : probe)
| Sleep (secs : nat).

#[global] Instance probe_eq_dec : EqDecision probe.
Proof. solve_decision. Defined.

#[global] Instance event_eq_dec : EqDecision event.
Proof. solve_decision. Defined.

(** The entity: the [attr.s] fields of [PhysicalServer]. *)
Record PhysicalServer : Type := {
  name : string;
  provider : option Provider;
  hostname : option string;
  ip_address : option string;
  custom_ident : option string
}.

(** The variants a [@variable] accessor is registered with; every accessor
    of the module has the single variant [alias='ui']. *)
Inductive variant : Type := ui_variant.

(** How an attribute fetched with [getattr] is called: without arguments, as
    [wait_for_state_change] calls its target, or with the keyword [method],
    as [validate_stats] calls the accessor of a key. *)
Inductive call_args : Type :=
| NoArgs
| MethodKw (method : option variant).

Record World : Type := {
  now : nat;
  step : nat;
  log : list event
}.

Definition M (A : Type) : Type := World -> Res A * World.

(** The environment answers the [n]-th interaction: how long it takes, which
    names the pages of the servers listing show, the text of a field of the
    details page, whether the flash banner is displayed, a provider's last
    refresh date, what the management system reports for a server, and how
    the HTTPS endpoint reacts.

    Its last component stands for the part of the entity's class that this
    module does not fix.  The class derives from [BaseEntity], [Updateable],
    [Pretty], [PolicyProfileAssignable] and [Taggable], none of which is
    among the sources, and a subclass may add to it; which names other than
    the four read accessors are attributes of an entity, and what fetching
    and calling one of them does, is therefore taken as given:
    [other_attribute self a args] is [None] when [self] has no attribute
    [a], and otherwise the program that [getattr(self, a)] called with
    [args] runs, ending in the text it returns or in the exception it
    raises. *)
Record Env : Type := {
  latency : nat -> nat;
  listing : nat -> list (list string);
  page_text : nat -> string -> string -> string;
  flash : nat -> bool;
  last_refresh : nat -> string -> Z;
  mgmt_stats : nat -> string -> string -> gmap string value;
  mgmt_inventory : nat -> string -> string -> gmap string value;
  http : nat -> string -> probe;
  other_attribute : PhysicalServer -> string -> call_args -> option (M string)
}.

Definition ret {A} (a : A) : M A := fun w => (Ok a, w).

Definition raise {A} (e : exn) : M A := fun w => (Raise e, w).

Definition bind {A B} (m : M A) (k : A -> M B) : M B :=
  fun w =>
    match m w with
    | (Ok a, w') => k a w'
    | (Raise e, w') => (Raise e, w')
    | (Diverged, w') => (Diverged, w')
    end.

Declare Scope prog_scope.
Delimit Scope prog_scope with prog.
Notation "'let!' x ':=' c 'in' k" := (bind c (fun x => k))
  (at level 10, x name, c at level 100, k at level 200) : prog_scope.
Notation "'do!' c 'in' k" := (bind c (fun _ => k))
  (at level 10, c at level 100, k at level 200) : prog_scope.
Local Open Scope prog_scope.

(** [try: body except ...]: [handler] gives the clause that catches an
    exception, if there is one. *)
Definition try_except {A} (body : M A) (handler : exn -> option (M A)) : M A :=
  fun w =>
    match body w with
    | (Raise e, w') =>
        match handler e with
        | Some h => h w'
        | None => (Raise e, w')
        end
    | r => r
    end.

(** The views the navigator lands on. *)
Inductive View : Type :=
| PhysicalServersView
| PhysicalServerDetailsView.

(** The keyword arguments the action methods pass on to
    [_execute_action_button]; [None] is a keyword that was not given. *)
Record Kwargs : Type := {
  kw_handle_alert : option bool;
  kw_target : option string;
  kw_provider : option Provider;
  kw_desired_state : option string;
  kw_timeout : option nat;
  kw_delay : option nat
}.

(** Truth value of a string: only the empty string is false. *)
Definition truthy (s : string) : bool :=
  match s with
  | EmptyString => false
  | String _ _ => true
  end.

(** Does some page of the listing show the name? *)
Definition on_some_page (nm : string) (pages : list (list string)) : bool :=
  existsb (existsb (String.eqb nm)) pages.

Section Program.

Context (env : Env).

(** One interaction: the environment's answer at the current step is
    logged, the step counter advances and the clock moves on by the
    interaction's latency. *)
Definition interact {A} (answer : nat -> A) (ev : A -> event) : M A :=
  fun w =>
    let a := answer (step w) in
    (Ok a, {| now := now w + latency env (step w);
              step := S (step w);
              log := log w ++ [ev a] |}).

Definition act (ev : event) : M unit :=
  interact (fun _ => tt) (fun _ => ev).

(** [time.sleep(secs)] *)
Definition sleep (secs : nat) : M unit :=
  fun w => (Ok tt, {| now := now w + secs; step := step w;
                      log := log w ++ [Sleep secs] |}).

(** [time.time()] *)
Definition clock : M nat := fun w => (Ok (now w), w).

(** *** The wait-poller *)

(** The loop of [wait_for]; [fuel] bounds the number of attempts. *)
Fixpoint wait_loop (fuel : nat) (func : M bool) (fail_func : M unit)
  (start num_sec delay : nat) : M unit :=
  match fuel with
  | O => fun w => (Diverged, w)
  | S fuel' =>
      let! out := func in
      if out : bool then ret tt
      else
        do! fail_func in
        do! sleep delay in
        let! t := clock in
        if (num_sec <? t - start)%nat then raise TimedOutError
        else wait_loop fuel' func fail_func start num_sec delay
  end.

(** Modelled from the spec: [cfme.utils.wait.wait_for], which is not among
    the sources.  The spec's contract (4.1) is: [wait_for(predicate, timeout,
    delay, on_failure?)] calls the predicate repeatedly with [delay] spacing
    until it returns truthy or [timeout] elapses, may invoke the optional
    recovery action on each failed attempt before retrying, and fails with
    [TimedOut] when the timeout is exceeded.  An exception of the predicate
    is not caught.  With a positive [delay] at most [num_sec + 1] attempts
    fit in the budget, which is the bound the loop is given; with
    [delay = 0] and a world in which interactions take no time the loop
    would spin for ever, which shows as [Diverged]. *)
Definition wait_for (func : M bool) (num_sec delay : nat)
  (fail_func : option (M unit)) : M unit :=
  let! start := clock in
  wait_loop (S num_sec) func (default (ret tt) fail_func) start num_sec delay.

(** *** Navigation *)

(** Modelled from the spec: [navigate_to], which is not among the sources;
    the steps it runs are the ones registered at the end of the module.
    Every navigation starts from the logged-in root: the model keeps no
    record of the view the browser displays, so the shortcut the spec (4.2)
    allows when a view is displayed already is never taken.

    Step [All] of the collection: from the logged-in dashboard, the menu
    entry Compute / Physical Infrastructure / Servers. *)
Definition navigate_to_All : M View :=
  do! act (NavSelect ["Compute"; "Physical Infrastructure"; "Servers"]) in
  ret PhysicalServersView.

(** Modelled from the spec: [view.entities.get_entity(name=..., surf_pages=True)]
    of the listing view, which is not among the sources.  The spec has it
    find the entity by scanning the listing across all its pages; the entity
    absent, it raises [ItemNotFound]. *)
Definition get_entity (nm : string) : M unit :=
  let! found := interact (fun n => on_some_page nm (listing env n))
                         (EntityLookup nm) in
  if found : bool then ret tt else raise ItemNotFound.

(** Step [Details] of a server: the [All] view first, then a click on the
    server's entity in the listing. *)
Definition navigate_to_Details (self : PhysicalServer) : M View :=
  do! navigate_to_All in
  do! get_entity (name self) in
  do! act (EntityClick (name self)) in
  ret PhysicalServerDetailsView.

(** [view.browser.refresh()] and [self.browser.selenium.refresh()] *)
Definition browser_refresh : M unit := act BrowserRefresh.

Definition flush_widget_cache (view : View) : M unit := act FlushWidgetCache.

(** [view.entities.<table>.get_text_of(field)] *)
Definition get_text_of (view : View) (table field : string) : M string :=
  interact (fun n => page_text env n table field) (ReadText table field).

(** [view.toolbar.custom_button(button).item_select(option, handle_alert)] *)
Definition item_select (view : View) (button option : string)
  (handle_alert : bool) : M unit :=
  act (ItemSelect button option handle_alert).

(** [view.flash.is_displayed] *)
Definition flash_is_displayed (view : View) : M bool :=
  interact (flash env) FlashDisplayed.

(** [provider.last_refresh_date()]; on [None] the attribute lookup fails. *)
Definition last_refresh_date (provider : option Provider) : M Z :=
  match provider with
  | Some p => interact (fun n => last_refresh env n (provider_name p))
                       (LastRefreshDate (provider_name p))
  | None => raise (AttributeError "last_refresh_date")
  end.

(** [requests.get(url, verify=verify_ssl).ok] *)
Definition requests_get_ok (url : string) (verify_ssl : bool) : M bool :=
  let! r := interact (fun n => http env n url) (HttpGet url verify_ssl) in
  match r with
  | Responded ok => ret ok
  | ConnectionFailed => raise ConnectionError
  | RequestFailed => raise RequestException
  end.

(** *** PhysicalServer *)

Definition INVENTORY_TO_MATCH : list string := ["power_state"].
Definition STATS_TO_MATCH : list string := ["cores_capacity"; "memory_capacity"].

Definition load_details (self : PhysicalServer) (refresh : bool) : M unit :=
  let! view := navigate_to_Details self in
  if refresh then
    do! browser_refresh in
    flush_widget_cache view
  else ret tt.

Definition _execute_button (self : PhysicalServer) (button option : string)
  (handle_alert : bool) : M View :=
  let! view := navigate_to_Details self in
  do! item_select view button option handle_alert in
  ret view.

(** The predicate [refresh] polls: [last_refresh != provider.last_refresh_date()]. *)
Definition refresh_date_changed (provider : option Provider) (last_refresh : Z)
  : M bool :=
  let! d := last_refresh_date provider in
  ret (negb (Z.eqb last_refresh d)).

Definition refresh (self : PhysicalServer) (provider : option Provider)
  (handle_alert : bool) : M unit :=
  let! last_refresh := last_refresh_date provider in
  do! _execute_button self "Configuration"
        "Refresh Relationships and Power States" handle_alert in
  wait_for (refresh_date_changed provider last_refresh) 300 30 None.

(** Modelled from the spec: the decorator [variable] of [cfme.utils.varmeth],
    which is not among the sources.  The spec (4.3) has each read accessor
    polymorphic over its retrieval method, with the "read from the displayed
    view" implementation the only one there is; a call that names no method,
    or names [None], is taken to select that implementation, as a call that
    names ['ui'] does. *)
Definition variable_call {A} (method : option variant) (ui_impl : M A) : M A :=
  match method with
  | None | Some ui_variant => ui_impl
  end.

Definition power_state (self : PhysicalServer) (method : option variant)
  : M string :=
  variable_call method
    (let! view := navigate_to_Details self in
     get_text_of view "power_management" "Power State").

Definition location_led_state (self : PhysicalServer) (method : option variant)
  : M string :=
  variable_call method
    (let! view := navigate_to_Details self in
     get_text_of view "properties" "Identify LED State").

Definition cores_capacity (self : PhysicalServer) (method : option variant)
  : M string :=
  variable_call method
    (let! view := navigate_to_Details self in
     get_text_of view "properties" "CPU total cores").

Definition memory_capacity (self : PhysicalServer) (method : option variant)
  : M string :=
  variable_call method
    (let! view := navigate_to_Details self in
     get_text_of view "properties" "Total memory (mb)").

(** The [method] a call hands to a [@variable] accessor. *)
Definition method_of_call (args : call_args) : option variant :=
  match args with
  | NoArgs => None
  | MethodKw method => method
  end.

(** [getattr(self, attr)()] and [getattr(self, attr)(method=method)].  A
    name that is [None] is a [TypeError] of [getattr]; the four read
    accessors are the methods above; for any other name the environment says
    whether the entity has such an attribute and what calling it does, and
    [getattr] raises [AttributeError] when it has none. *)
Definition getattr_call (self : PhysicalServer) (attr : option string)
  (args : call_args) : M string :=
  match attr with
  | None => raise TypeError
  | Some a =>
      let method := method_of_call args in
      if String.eqb a "power_state" then power_state self method
      else if String.eqb a "location_led_state" then location_led_state self method
      else if String.eqb a "cores_capacity" then cores_capacity self method
      else if String.eqb a "memory_capacity" then memory_capacity self method
      else
        match other_attribute env self a args with
        | Some call => call
        | None => raise (AttributeError a)
        end
  end.

(** The closure [_is_state_changed] of [wait_for_state_change]. *)
Definition _is_state_changed (self : PhysicalServer) (desired_state : string)
  (target : option string) (provider : option Provider) (view : View) : M bool :=
  do! refresh self provider true in
  do! browser_refresh in
  let! state := getattr_call self target NoArgs in
  ret (String.eqb desired_state state).

Definition wait_for_state_change (self : PhysicalServer) (desired_state : string)
  (target : option string) (provider : option Provider) (view : View)
  (timeout delay : nat) : M unit :=
  wait_for (_is_state_changed self desired_state target provider view)
           timeout delay None.

Definition _execute_action_button (self : PhysicalServer)
  (button option : string) (kwargs : Kwargs) : M unit :=
  let handle_alert := default true (kw_handle_alert kwargs) in
  let target := kw_target kwargs in
  let provider := kw_provider kwargs in
  let desired_state := kw_desired_state kwargs in
  let timeout := default 300%nat (kw_timeout kwargs) in
  let delay := default 10%nat (kw_delay kwargs) in
  let! view := _execute_button self button option handle_alert in
  match desired_state with
  | Some d =>
      if truthy d then
        wait_for_state_change self d target provider view timeout delay
      else if handle_alert then wait_for (flash_is_displayed view) 5 2 None
      else ret tt
  | None =>
      if handle_alert then wait_for (flash_is_displayed view) 5 2 None
      else ret tt
  end.

Definition power_on (self : PhysicalServer) (kwargs : Kwargs) : M unit :=
  _execute_action_button self "Power" "Power On" kwargs.

Definition power_off (self : PhysicalServer) (kwargs : Kwargs) : M unit :=
  _execute_action_button self "Power" "Power Off" kwargs.





Definition turn_on_loc_led (self : PhysicalServer) (kwargs : Kwargs) : M unit :=
  _execute_action_button self "Identify" "Turn On LED" kwargs.



(** The property [exists]. *)
Definition exists_ (self : PhysicalServer) : M bool :=
  let! view := navigate_to_All in
  try_except
    (do! get_entity (name self) in ret true)
    (fun e => match e with
              | ItemNotFound => Some (ret false)
              | _ => None
              end).

(** [str(x)] of an attribute that may be [None]. *)
Definition str_of_attr (a : option string) : string := default "None" a.

(** The closure [_send_request] of [_wait_restart_bmc]. *)
Definition _send_request (url : string) (verify_ssl : bool) : M bool :=
  try_except
    (requests_get_ok url verify_ssl)
    (fun e => match e with
              | ConnectionError => Some (ret false)
              | _ => None
              end).

(** [lambda: not _send_request()] *)
Definition not_send_request (url : string) (verify_ssl : bool) : M bool :=
  let! r := _send_request url verify_ssl in
  ret (negb r).

(** [_wait_restart_bmc(self, delay=5, num_sec=300, verify_ssl=False)]; an
    argument that is [None] takes its default. *)
Definition _wait_restart_bmc (self : PhysicalServer) (delay num_sec : option nat)
  (verify_ssl : option bool) : M unit :=
  let delay := default 5%nat delay in
  let num_sec := default 300%nat num_sec in
  let verify_ssl := default false verify_ssl in
  let url := fmt "https://{}" [str_of_attr (ip_address self)] in
  do! wait_for (not_send_request url verify_ssl) num_sec delay None in
  wait_for (_send_request url verify_ssl) num_sec delay None.

Definition restart_management_controller (self : PhysicalServer)
  (wait_restart_bmc : bool) (kwargs : Kwargs) : M unit :=
  do! _execute_action_button self "Power" "Restart Management Controller"
        kwargs in
  if wait_restart_bmc then _wait_restart_bmc self None None None else ret tt.

(** *** validate_stats *)

(** [container[key]]: a dictionary without the key raises [KeyError]; a
    string or an integer subscripted by a string raises [TypeError]. *)
Definition subscript (container : gmap string value + value) (key : string)
  : M value :=
  match container with
  | inl d =>
      match d !! key with
      | Some v => ret v
      | None => raise (KeyError key)
      end
  | inr _ => raise TypeError
  end.

(** [int(v)] *)
Definition int_ (v : value) : M Z :=
  match py_int v with
  | Some z => ret z
  | None => raise ValueError
  end.

(** [self.provider.mgmt]: the client of the entity's provider. *)
Definition provider_mgmt (self : PhysicalServer) : M Provider :=
  match provider self with
  | Some p => ret p
  | None => raise (AttributeError "mgmt")
  end.

(** [client.stats(k1, k2, ..., requester=self)] *)
Definition client_stats (client : Provider) (keys : list string)
  (requester : PhysicalServer) : M (gmap string value) :=
  interact (fun n => mgmt_stats env n (provider_name client) (name requester))
           (fun _ => MgmtStats (provider_name client) keys (name requester)).

(** [client.inventory(k1, k2, ..., requester=self)] *)
Definition client_inventory (client : Provider) (keys : list string)
  (requester : PhysicalServer) : M (gmap string value) :=
  interact (fun n => mgmt_inventory env n (provider_name client) (name requester))
           (fun _ => MgmtInventory (provider_name client) keys (name requester)).

Definition stat_msg : string :=
  "The {} stat does not match. (server: {}, server stat: {}, cfme stat: {})".
Definition inventory_msg : string :=
  "The {} inventory does not match. (server: {}, server inventory: {}, cfme inventory: {})".

(** The two [except] clauses that follow each loop body. *)
Definition stats_handlers {A} (missing : string) (key : string) (e : exn)
  : option (M A) :=
  match e with
  | KeyError _ => Some (raise (HostStatsNotContains (fmt missing [key])))
  | AttributeError _ =>
      Some (raise (ProviderHasNoProperty
                     (fmt "Provider does not know how to get '{}'" [key])))
  | _ => None
  end.

Definition method_of (ui : bool) : option variant :=
  if ui then Some ui_variant else None.

(** The body of [for stat in stats_to_match]. *)
Definition check_stat (self : PhysicalServer) (ui : bool)
  (server_stats : gmap string value) (stat : string) : M unit :=
  try_except
    (let! text := getattr_call self (Some stat) (MethodKw (method_of ui)) in
     let! cfme_stat := int_ (VStr text) in
     let! remote := subscript (inl server_stats) stat in
     let! server_stat := int_ remote in
     if bool_decide (server_stat <> cfme_stat) then
       raise (StatsDoNotMatch
                (fmt stat_msg [stat; name self; py_str (VInt server_stat);
                               py_str (VInt cfme_stat)]))
     else ret tt)
    (stats_handlers "Server stats information does not contain '{}'" stat).

(** The body of [for inventory in inventory_to_match].  The assignment
    [server_inventory = server_inventory[inventory]] rebinds the variable
    that held the mapping, so the body hands the new binding on to the next
    iteration. *)
Definition check_inventory (self : PhysicalServer) (ui : bool)
  (server_inventory : gmap string value + value) (inventory : string)
  : M (gmap string value + value) :=
  try_except
    (let! cfme_inventory :=
       getattr_call self (Some inventory) (MethodKw (method_of ui)) in
     let! server_inventory' := subscript server_inventory inventory in
     if bool_decide (server_inventory' <> VStr cfme_inventory) then
       raise (StatsDoNotMatch
                (fmt inventory_msg [inventory; name self;
                                    py_str server_inventory'; cfme_inventory]))
     else ret (inr server_inventory'))
    (stats_handlers "Server inventory information does not contain '{}'"
                    inventory).

Fixpoint for_each {A} (l : list A) (body : A -> M unit) : M unit :=
  match l with
  | [] => ret tt
  | x :: r => do! body x in for_each r body
  end.

Fixpoint for_fold {A S} (l : list A) (s : S) (body : S -> A -> M S) : M S :=
  match l with
  | [] => ret s
  | x :: r => let! s' := body s x in for_fold r s' body
  end.

(** [validate_stats] for given class attributes [STATS_TO_MATCH] and
    [INVENTORY_TO_MATCH] (a subclass may override them). *)
Definition validate_stats_of (stats_to_match inventory_to_match : list string)
  (self : PhysicalServer) (ui : bool) : M unit :=
  do! (if ui then load_details self false else ret tt) in
  let! client := provider_mgmt self in
  let! server_stats := client_stats client stats_to_match self in
  let! server_inventory := client_inventory client inventory_to_match self in
  do! (if ui then browser_refresh else ret tt) in
  do! for_each stats_to_match (check_stat self ui server_stats) in
  do! for_fold inventory_to_match (inl server_inventory)
        (check_inventory self ui) in
  ret tt.

Definition validate_stats (self : PhysicalServer) (ui : bool) : M unit :=
  validate_stats_of STATS_TO_MATCH INVENTORY_TO_MATCH self ui.

End Program.

(** ** PhysicalServerCollection *)

(** The five relations the collection joins, with the columns the query
    touches. *)
Record physical_servers_row : Type := {
  ps_id : Z; ps_name : string; ps_ems_id : Z
}.
Record ext_management_systems_row : Type := {
  ems_id : Z; ems_name : string
}.
Record computer_systems_row : Type := {
  cs_id : Z; cs_managed_entity_id : Z
}.
Record hardwares_row : Type := {
  hw_id : Z; hw_computer_system_id : Z
}.
Record networks_row : Type := {
  net_id : Z; net_ipaddress : option string
}.

(** [appliance.db.client] *)
Record Database : Type := {
  physical_servers : list physical_servers_row;
  ext_management_systems : list ext_management_systems_row;
  computer_systems : list computer_systems_row;
  hardwares : list hardwares_row;
  networks : list networks_row
}.

(** The collection: its [filters] dictionary and the appliance's database. *)
Record PhysicalServerCollection : Type := {
  filters : gmap string Provider;
  appliance_db : Database
}.

(** A row of the query: server name, management-system name, IP address. *)
Definition query_row : Type := string * string * option string.

(** The query both [all] and [find_by] build: the inner join of the five
    tables, as a nested loop in the order of the [join] calls. *)
Definition physical_server_query (db : Database) : list query_row :=
  flat_map (fun ps =>
    flat_map (fun ems =>
      flat_map (fun cs =>
        flat_map (fun hw =>
          flat_map (fun net => [(ps_name ps, ems_name ems, net_ipaddress net)])
            (List.filter (fun net => Z.eqb (hw_id hw) (net_id net))
                         (networks db)))
          (List.filter (fun hw => Z.eqb (cs_id cs) (hw_computer_system_id hw))
                       (hardwares db)))
        (List.filter (fun cs => Z.eqb (ps_id ps) (cs_managed_entity_id cs))
                     (computer_systems db)))
      (List.filter (fun ems => Z.eqb (ps_ems_id ps) (ems_id ems))
                   (ext_management_systems db)))
    (physical_servers db).

(** [query.filter(ems_table.name == provider.name)] *)
Definition filter_by_ems (p : Provider) (rows : list query_row)
  : list query_row :=
  List.filter (fun row => String.eqb (snd (fst row)) (provider_name p)) rows.

(** [self.instantiate(name=..., ip_address=..., provider=...)] *)
Definition instantiate (nm : string) (ip : option string) (p : Provider)
  : PhysicalServer :=
  {| name := nm; provider := Some p; hostname := None; ip_address := ip;
     custom_ident := None |}.

Definition res_bind {A B} (r : Res A) (k : A -> Res B) : Res B :=
  match r with
  | Ok a => k a
  | Raise e => Raise e
  | Diverged => Diverged
  end.

Section Collection.

(** [cfme.utils.providers.get_crud_by_name], which is not among the sources:
    the provider registered under a name, or the exception it raises. *)
Context (get_crud_by_name : string -> Res Provider).

(** [provider or get_crud_by_name(ems_name)] *)
Definition provider_or_crud (provider : option Provider) (ems : string)
  : Res Provider :=
  match provider with
  | Some p => Ok p
  | None => get_crud_by_name ems
  end.

(** The loop of [all]: one entity appended per row. *)
Fixpoint instantiate_rows (provider : option Provider) (rows : list query_row)
  : Res (list PhysicalServer) :=
  match rows with
  | [] => Ok []
  | (nm, ems, ip) :: rest =>
      res_bind (provider_or_crud provider ems) (fun p =>
      res_bind (instantiate_rows provider rest) (fun servers =>
      Ok (instantiate nm ip p :: servers)))
  end.

(** The loop of [find_by]: the first row of that name is returned; a loop
    that runs out falls off the end of the function, which returns [None]. *)
Fixpoint first_named (provider : option Provider) (ph_name : string)
  (rows : list query_row) : Res (option PhysicalServer) :=
  match rows with
  | [] => Ok None
  | (nm, ems, ip) :: rest =>
      if String.eqb ph_name nm then
        res_bind (provider_or_crud provider ems) (fun p =>
        Ok (Some (instantiate nm ip p)))
      else first_named provider ph_name rest
  end.

Definition all (self : PhysicalServerCollection) (provider : option Provider)
  : Res (list PhysicalServer) :=
  let physical_server_query := physical_server_query (appliance_db self) in
  let provider : option Provider := None in
  match filters self !! "provider" with
  | Some p =>
      let provider := Some p in
      let physical_server_query := filter_by_ems p physical_server_query in
      instantiate_rows provider physical_server_query
  | None => instantiate_rows provider physical_server_query
  end.

Definition find_by (self : PhysicalServerCollection) (provider : option Provider)
  (ph_name : string) : Res (option PhysicalServer) :=
  let physical_server_query := physical_server_query (appliance_db self) in
  let provider : option Provider := None in
  match filters self !! "provider" with
  | Some p =>
      let provider := Some p in
      let physical_server_query := filter_by_ems p physical_server_query in
      first_named provider ph_name physical_server_query
  | None => first_named provider ph_name physical_server_query
  end.

End Collection.

(** * Further code of the module *)

Section Waits.

Context (env : Env).

(** The delay [wait_for] uses when the caller gives none.  The poller is
    not among the sources, so its default is a parameter. *)
Context (default_delay : nat).

(** [lambda: not self.exists] *)
Definition not_exists (self : PhysicalServer) : M bool :=
  let! e := exists_ env self in
  ret (negb e).

Definition wait_to_appear (self : PhysicalServer) : M unit :=
  let! view := navigate_to_All env in
  wait_for (exists_ env self) 1000 default_delay (Some (browser_refresh env)).

Definition wait_for_delete (self : PhysicalServer) : M unit :=
  let! view := navigate_to_All env in
  wait_for (not_exists self) 500 default_delay (Some (browser_refresh env)).

End Waits.

(** * Vocabulary of the properties *)

Local Open Scope list_scope.

(** The world after [time.sleep(secs)]. *)
Definition slept (secs : nat) (w : World) : World :=
  {| now := now w + secs; step := step w; log := log w ++ [Sleep secs] |}.

(** The world after one interaction logged as [e]. *)
Definition ticked (env : Env) (e : event) (w : World) : World :=
  {| now := now w + latency env (step w); step := S (step w);
     log := log w ++ [e] |}.

(** A program is steady when it never leaves the poller's iteration bound
    exhausted and never turns the clock back. *)
Definition steady {A} (m : M A) : Prop :=
  forall w r w', m w = (r, w') -> r <> Diverged /\ now w <= now w'.

(** [polled func fail_func start num_sec delay w ats wk]: starting in [w],
    the loop made the failed attempts [ats] (each given by the worlds in
    which the predicate was entered and left), recovered and slept after
    each of them with the budget not yet exceeded, and is about to call the
    predicate again in [wk]. *)
Inductive polled (func : M bool) (fail_func : M unit)
  (start num_sec delay : nat) : World -> list (World * World) -> World -> Prop :=
| polled_nil w : polled func fail_func start num_sec delay w [] w
| polled_cons w w1 w2 ats wk :
    func w = (Ok false, w1) ->
    fail_func w1 = (Ok tt, w2) ->
    now (slept delay w2) - start <= num_sec ->
    polled func fail_func start num_sec delay (slept delay w2) ats wk ->
    polled func fail_func start num_sec delay w ((w, w1) :: ats) wk.

(** How the last attempt of a run ends, entered in [wk]. *)
Inductive finished (func : M bool) (fail_func : M unit)
  (start num_sec delay : nat) (wk : World) : Res unit -> World -> Prop :=
| fin_true w' :
    func wk = (Ok true, w') ->
    finished func fail_func start num_sec delay wk (Ok tt) w'
| fin_raise e w' :
    func wk = (Raise e, w') ->
    finished func fail_func start num_sec delay wk (Raise e) w'
| fin_fail_raise e w1 w' :
    func wk = (Ok false, w1) -> fail_func w1 = (Raise e, w') ->
    finished func fail_func start num_sec delay wk (Raise e) w'
| fin_timeout w1 w2 :
    func wk = (Ok false, w1) -> fail_func w1 = (Ok tt, w2) ->
    num_sec < now (slept delay w2) - start ->
    finished func fail_func start num_sec delay wk (Raise TimedOutError)
             (slept delay w2).



(** The world after the interactions logged as [evs]. *)
Definition ticks (env : Env) (evs : list event) (w : World) : World :=
  fold_left (fun w e => ticked env e w) evs w.

(** The time [n] consecutive interactions take from step [s] on. *)
Fixpoint latencies (env : Env) (s n : nat) : nat :=
  match n with
  | O => 0
  | S n' => latency env s + latencies env (S s) n'
  end.

(** The log of a navigation to the details view of [nm]. *)
Definition details_nav (nm : string) : list event :=
  [NavSelect ["Compute"; "Physical Infrastructure"; "Servers"];
   EntityLookup nm true; EntityClick nm].

(** The log of a navigation that does not find [nm] in the listing. *)
Definition details_nav_failed (nm : string) : list event :=
  [NavSelect ["Compute"; "Physical Infrastructure"; "Servers"];
   EntityLookup nm false].





(** The summary table and the field each read accessor shows. *)
Definition accessor_field (attr : string) : option (string * string) :=
  if String.eqb attr "power_state" then
    Some ("power_management", "Power State")
  else if String.eqb attr "location_led_state" then
    Some ("properties", "Identify LED State")
  else if String.eqb attr "cores_capacity" then
    Some ("properties", "CPU total cores")
  else if String.eqb attr "memory_capacity" then
    Some ("properties", "Total memory (mb)")
  else None.

(** The call of the attribute named [attr] is one this module decides:
    [attr] is no name at all, or names one of the four read accessors, or
    names nothing the entity has. *)
Definition determined (env : Env) (self : PhysicalServer)
  (attr : option string) (args : call_args) : Prop :=
  match attr with
  | None => True
  | Some a => accessor_field a = None -> other_attribute env self a args = None
  end.

(** The call that [validate_stats] makes for the key [k] is one this module
    decides. *)
Definition key_determined (env : Env) (self : PhysicalServer) (ui : bool)
  (k : string) : Prop :=
  determined env self (Some k) (MethodKw (method_of ui)).








(** [yields m r]: whatever the world, [m] ends in [r]. *)
Definition yields {A} (m : M A) (r : Res A) : Prop :=
  forall w, exists w', m w = (r, w').

(** The messages of the exceptions [validate_stats] raises for key [k]. *)
Definition stat_mismatch (self : PhysicalServer) (k : string)
  (server_stat cfme_stat : Z) : exn :=
  StatsDoNotMatch
    (fmt stat_msg [k; name self; py_str (VInt server_stat);
                   py_str (VInt cfme_stat)]).

Definition inventory_mismatch (self : PhysicalServer) (k : string)
  (server_inventory : value) (cfme_inventory : string) : exn :=
  StatsDoNotMatch
    (fmt inventory_msg [k; name self; py_str server_inventory;
                        cfme_inventory]).

Definition stats_missing (k : string) : exn :=
  HostStatsNotContains
    (fmt "Server stats information does not contain '{}'" [k]).

Definition inventory_missing (k : string) : exn :=
  HostStatsNotContains
    (fmt "Server inventory information does not contain '{}'" [k]).

Definition no_property (k : string) : exn :=
  ProviderHasNoProperty (fmt "Provider does not know how to get '{}'" [k]).

(** An environment that stands still while [validate_stats] runs: the
    entity has the provider [client], the listing always shows the server,
    the details page always shows the texts [texts], and the management
    system always reports [server_stats] and [server_inventory]. *)
Definition still (env : Env) (self : PhysicalServer) (client : Provider)
  (texts : string -> string -> string)
  (server_stats server_inventory : gmap string value) : Prop :=
  provider self = Some client /\
  (forall n, on_some_page (name self) (listing env n) = true) /\
  (forall n table field, page_text env n table field = texts table field) /\
  (forall n, mgmt_stats env n (provider_name client) (name self)
             = server_stats) /\
  (forall n, mgmt_inventory env n (provider_name client) (name self)
             = server_inventory).

(** What the check of one stat key comes to in a still environment, for a
    key that names a read accessor or nothing the entity has. *)
Definition stat_verdict (self : PhysicalServer)
  (texts : string -> string -> string) (server_stats : gmap string value)
  (k : string) : Res unit :=
  match accessor_field k with
  | None => Raise (no_property k)
  | Some (table, field) =>
      match py_int (VStr (texts table field)) with
      | None => Raise ValueError
      | Some cfme_stat =>
          match server_stats !! k with
          | None => Raise (stats_missing k)
          | Some remote =>
              match py_int remote with
              | None => Raise ValueError
              | Some server_stat =>
                  if bool_decide (server_stat <> cfme_stat)
                  then Raise (stat_mismatch self k server_stat cfme_stat)
                  else Ok tt
              end
          end
      end
  end.

(** What the check of the first inventory key comes to, for such a key. *)
Definition inventory_verdict (self : PhysicalServer)
  (texts : string -> string -> string) (server_inventory : gmap string value)
  (k : string) : Res (gmap string value + value) :=
  match accessor_field k with
  | None => Raise (no_property k)
  | Some (table, field) =>
      match server_inventory !! k with
      | None => Raise (inventory_missing k)
      | Some remote =>
          if bool_decide (remote <> VStr (texts table field))
          then Raise (inventory_mismatch self k remote (texts table field))
          else Ok (inr remote)
      end
  end.

(** The check of stat key [k] passes: the entity has the accessor, the
    remote statistics have the key, and the two values are the same integer. *)
Definition stat_agrees (texts : string -> string -> string)
  (server_stats : gmap string value) (k : string) : Prop :=
  exists table field remote z,
    accessor_field k = Some (table, field) /\
    py_int (VStr (texts table field)) = Some z /\
    server_stats !! k = Some remote /\
    py_int remote = Some z.


(** A laboratory: one provider, one server on the second page of the
    listing, interactions that take a second each, a provider whose refresh
    date advances every eight interactions, and an endpoint that answers
    two probes, refuses the connection twice and answers again. *)
Definition lab_provider : Provider := {| provider_name := "lenovo" |}.

Definition lab_server : PhysicalServer :=
  {| name := "srv1"; provider := Some lab_provider; hostname := None;
     ip_address := Some "10.0.0.1"; custom_ident := None |}.

Definition lab_texts (cores memory power : string) (table field : string)
  : string :=
  if String.eqb field "CPU total cores" then cores
  else if String.eqb field "Total memory (mb)" then memory
  else if String.eqb field "Power State" then power
  else "".

Definition lab (texts : string -> string -> string)
  (stats inventory : gmap string value) : Env :=
  {| latency := fun _ => 1;
     listing := fun _ => [["srv0"]; ["srv1"]];
     page_text := fun _ => texts;
     flash := fun _ => true;
     last_refresh := fun n _ => Z.of_nat (n / 8);
     mgmt_stats := fun _ _ _ => stats;
     mgmt_inventory := fun _ _ _ => inventory;
     http := fun n _ =>
       if (n <? 2)%nat then Responded true
       else if (n <? 4)%nat then ConnectionFailed
       else Responded true;
     other_attribute := fun _ _ _ => None |}.

Definition boot : World := {| now := 0; step := 0; log := [] |}.

(** The server as the spec's scenarios have it: 16 cores, 32768 MB, on. *)
Definition lab_stats : gmap string value :=
  {[ "cores_capacity" := VInt 16; "memory_capacity" := VInt 32768 ]}.

Definition lab_inventory : gmap string value :=
  {[ "power_state" := VStr "on" ]}.

Definition lab_kwargs (desired_state : string) : Kwargs :=
  {| kw_handle_alert := None; kw_target := Some "power_state";
     kw_provider := Some lab_provider; kw_desired_state := Some desired_state;
     kw_timeout := None; kw_delay := None |}.

(** The laboratory with the details page showing 16 cores, 32768 MB and
    the power state "on". *)
Definition lab_on : Env :=
  lab (lab_texts "16" "32768" "on") lab_stats lab_inventory.

(** The laboratory's database: the server, its management system, and the
    chain of computer system, hardware and network that gives its address;
    a second server has no network row. *)
Definition lab_db : Database :=
  {| physical_servers :=
       [ {| ps_id := 1; ps_name := "srv1"; ps_ems_id := 7 |};
         {| ps_id := 2; ps_name := "srv2"; ps_ems_id := 7 |} ];
     ext_management_systems := [ {| ems_id := 7; ems_name := "lenovo" |} ];
     computer_systems :=
       [ {| cs_id := 11; cs_managed_entity_id := 1 |};
         {| cs_id := 12; cs_managed_entity_id := 2 |} ];
     hardwares :=
       [ {| hw_id := 21; hw_computer_system_id := 11 |};
         {| hw_id := 22; hw_computer_system_id := 12 |} ];
     networks := [ {| net_id := 21; net_ipaddress := Some "10.0.0.1" |} ] |}.

Definition lab_collection : PhysicalServerCollection :=
  {| filters := ∅; appliance_db := lab_db |}.

Definition lab_crud (nm : string) : Res Provider :=
  Ok {| provider_name := nm |}.

(** * Further vocabulary *)

(** [adds P m]: whatever [m] ends in, it has only appended to the log, and
    every entry it appended satisfies [P]. *)
Definition adds (P : event -> Prop) {A} (m : M A) : Prop :=
  forall w r w', m w = (r, w') ->
  exists l, log w' = log w ++ l /\ Forall P l.

(** The entries a poll of the server's state makes: navigation, lookups,
    reloads and readings of the page, readings of the provider's refresh
    date, checks of the flash banner, sleeps, and of the toolbar only
    Configuration / Refresh Relationships and Power States. *)
Definition polls_only (e : event) : bool :=
  match e with
  | NavSelect _ | EntityLookup _ _ | EntityClick _ | BrowserRefresh
  | ReadText _ _ _ | FlashDisplayed _ | LastRefreshDate _ _ | Sleep _ => true
  | ItemSelect button option _ =>
      String.eqb button "Configuration" &&
      String.eqb option "Refresh Relationships and Power States"
  | _ => false
  end.

(** Is the entry a request to the out-of-band endpoint? *)
Definition is_http (e : event) : bool :=
  match e with
  | HttpGet _ _ _ => true
  | _ => false
  end.

(** The entries that only look: navigation to a view, a lookup in the
    listing, a page reload, the reading of a field, and the two queries of
    the management-system client. *)
Definition looks_only (e : event) : bool :=
  match e with
  | NavSelect _ | EntityLookup _ _ | EntityClick _ | BrowserRefresh
  | ReadText _ _ _ | MgmtStats _ _ _ | MgmtInventory _ _ _ => true
  | _ => false
  end.

(** The log of [k] checks that found no flash banner, each followed by the
    [delay] seconds of sleep. *)
Definition flash_wait (delay k : nat) : list event :=
  concat (replicate k [FlashDisplayed false; Sleep delay]).

(** The log of one evaluation of [exists]: the listing view and the lookup
    with its answer. *)
Definition listing_check (nm : string) (found : bool) : list event :=
  [NavSelect ["Compute"; "Physical Infrastructure"; "Servers"];
   EntityLookup nm found].

(** The log of [k] evaluations of [exists] that all answered [found], each
    followed by the reload of the browser and the [delay] seconds of sleep. *)
Definition listing_wait (nm : string) (found : bool) (delay k : nat)
  : list event :=
  concat (replicate k (listing_check nm found ++ [BrowserRefresh; Sleep delay])).

(** The laboratory with a listing that shows "srv1" only from the
    [since]-th interaction on. *)
Definition lab_late (since : nat) : Env :=
  {| latency := fun _ => 1;
     listing := fun n => if (n <? since)%nat then [["srv0"]]
                         else [["srv0"]; ["srv1"]];
     page_text := fun _ => lab_texts "16" "32768" "on";
     flash := fun _ => true;
     last_refresh := fun n _ => Z.of_nat (n / 8);
     mgmt_stats := fun _ _ _ => lab_stats;
     mgmt_inventory := fun _ _ _ => lab_inventory;
     http := fun _ _ => Responded true;
     other_attribute := fun _ _ _ => None |}.




(** The number of requests to the out-of-band endpoint in a log. *)
Definition requests (l : list event) : nat :=
  length (List.filter is_http l).

(** A predicate that makes exactly one request each time it is called. *)
Definition one_request (env : Env) (url : string) (verify_ssl : bool)
  (func : M bool) : Prop :=
  forall w r w', func w = (r, w') ->
    w' = ticked env (HttpGet url verify_ssl (http env (step w) url)) w.

(** ** Vocabulary of the collection *)

(** The rows of the five tables that the join of [all] and [find_by] puts
    together: one of each table, linked by the four [join] conditions. *)
Definition joined (db : Database) (ps : physical_servers_row)
  (ems : ext_management_systems_row) (cs : computer_systems_row)
  (hw : hardwares_row) (net : networks_row) : Prop :=
  In ps (physical_servers db) /\ In ems (ext_management_systems db) /\
  In cs (computer_systems db) /\ In hw (hardwares db) /\
  In net (networks db) /\
  ps_ems_id ps = ems_id ems /\ ps_id ps = cs_managed_entity_id cs /\
  cs_id cs = hw_computer_system_id hw /\ hw_id hw = net_id net.

(** The provider an entity gets for the management-system name of its row:
    the filter's provider, whose name the row then bears, or else what
    [get_crud_by_name] returns. *)
Definition resolved (get_crud_by_name : string -> Res Provider)
  (self : PhysicalServerCollection) (ems : string) (p : Provider) : Prop :=
  match filters self !! "provider" with
  | Some fp => ems = provider_name fp /\ p = fp
  | None => get_crud_by_name ems = Ok p
  end.

(** Does the entity bear the name asked for? *)
Definition named (ph_name : string) (s : PhysicalServer) : bool :=
  String.eqb ph_name (name s).

(** Is the management system of the row registered? *)
Definition looked_up (get_crud_by_name : string -> Res Provider)
  (row : query_row) : Prop :=
  exists p, get_crud_by_name row.1.2 = Ok p.

(** A registry that knows no management system. *)
Definition lab_no_crud (nm : string) : Res Provider := Raise (KeyError nm).

(** * The bulk actions of the collection *)

Section Bulk.

Context (env : Env).

(** [<entity>.check()] on a row of the listing: one more interaction with
    the browser, whose effect is a ticked checkbox.  The rows ticked on the
    listing view are carried along with the view. *)
Definition check (nm : string) (checked : list string) : M (list string) :=
  fun w => (Ok (checked ++ [nm]),
            {| now := now w + latency env (step w); step := S (step w);
               log := log w |}).

(** The loop of [select_entity_rows]. *)
Fixpoint check_rows (physical_servers : list PhysicalServer)
  (checked : list string) : M (list string) :=
  match physical_servers with
  | [] => ret checked
  | physical_server :: rest =>
      do! get_entity env (name physical_server) in
      let! checked := check (name physical_server) checked in
      check_rows rest checked
  end.

(** Returns the listing view, here with the rows it has ticked. *)
Definition select_entity_rows (physical_servers : list PhysicalServer)
  : M (View * list string) :=
  let! view := navigate_to_All env in
  let! checked := check_rows physical_servers [] in
  ret (view, checked).

End Bulk.

Module Collection.

(** [view.toolbar.power.item_select("Power On", handle_alert=True)] *)
Definition power_on (env : Env) (physical_servers : list PhysicalServer)
  : M unit :=
  let! view := select_entity_rows env physical_servers in
  item_select env view.1 "Power" "Power On" true.

Definition power_off (env : Env) (physical_servers : list PhysicalServer)
  : M unit :=
  let! view := select_entity_rows env physical_servers in
  item_select env view.1 "Power" "Power Off" true.

End Collection.

(** * The fixture mgmt_sys_api_clients *)

Section Fixtures.

(** [utils.providers.get_mgmt], which is not among the sources: the client
    of the management system registered under a key, or the exception the
    call raises. *)
Context {Client : Type} (get_mgmt : string -> Res Client).

(** The loop of the fixture: [clients[provider_key] = get_mgmt(provider_key)]
    for the keys in their order. *)
Fixpoint collect_clients (keys : list string) (clients : gmap string Client)
  : Res (gmap string Client) :=
  match keys with
  | [] => Ok clients
  | provider_key :: rest =>
      res_bind (get_mgmt provider_key) (fun c =>
      collect_clients rest (<[provider_key := c]> clients))
  end.

(** [cfme_data] maps a section of the configuration to the keys of that
    section, in the order in which iterating over the section yields them. *)
Definition mgmt_sys_api_clients (cfme_data : gmap string (list string))
  : Res (gmap string Client) :=
  match cfme_data !! "management_systems" with
  | None => Raise (KeyError "management_systems")
  | Some keys => collect_clients keys ∅
  end.

End Fixtures.

(** ** Vocabulary of the bulk actions and of the fixture *)

(** The two bulk actions of the collection. *)
Inductive bulk_action : Type :=
| BulkPowerOn
| BulkPowerOff.

Definition bulk_item (a : bulk_action) : string :=
  match a with
  | BulkPowerOn => "Power On"
  | BulkPowerOff => "Power Off"
  end.

Definition invoke_bulk (env : Env) (a : bulk_action)
  : list PhysicalServer -> M unit :=
  match a with
  | BulkPowerOn => Collection.power_on env
  | BulkPowerOff => Collection.power_off env
  end.

(** The log of the lookups that found their servers. *)
Definition lookups_found (servers : list PhysicalServer) : list event :=
  map (fun s => EntityLookup (name s) true) servers.

(** The menu entry of the listing. *)
Definition servers_menu : event :=
  NavSelect ["Compute"; "Physical Infrastructure"; "Servers"].

(** Did the call of [get_mgmt] for the key return a client? *)
Definition has_client {Client : Type} (get_mgmt : string -> Res Client)
  (k : string) : Prop :=
  exists c, get_mgmt k = Ok c.

(** A configuration with two management systems, and their clients. *)
Definition lab_cfme_data : gmap string (list string) :=
  {[ "management_systems" := ["lenovo"; "vsphere"] ]}.

Definition lab_get_mgmt (k : string) : Res string :=
  if String.eqb k "vsphere" then Raise ConnectionError else Ok k.

(** * Properties *)

(** ** The monad *)

Lemma bind_inv {A B} (m : M A) (k : A -> M B) w r w' :
  bind m k w = (r, w') ->
  (exists a w1, m w = (Ok a, w1) /\ k a w1 = (r, w')) \/
  (exists e, m w = (Raise e, w') /\ r = Raise e) \/
  (m w = (Diverged, w') /\ r = Diverged).
Proof.
  unfold bind. destruct (m w) as [[a | e |] w1]; intros H.
  - left. eauto.
  - right. left. inversion H; subst. eauto.
  - right. right. inversion H; subst. eauto.
Qed.

Lemma bind_ok {A B} (m : M A) (k : A -> M B) w a w1 :
  m w = (Ok a, w1) -> bind m k w = k a w1.
Proof. unfold bind. intros ->. reflexivity. Qed.

Lemma bind_raise {A B} (m : M A) (k : A -> M B) w e w1 :
  m w = (Raise e, w1) -> bind m k w = (Raise e, w1).
Proof. unfold bind. intros ->. reflexivity. Qed.

Lemma interact_eq env {A} (answer : nat -> A) (ev : A -> event) w :
  interact env answer ev w
  = (Ok (answer (step w)), ticked env (ev (answer (step w))) w).
Proof. reflexivity. Qed.

Lemma steady_ret {A} (a : A) : steady (ret a).
Proof. intros w r w' H. inversion H; subst. split; [discriminate | lia]. Qed.

Lemma steady_raise {A} e : steady (@raise A e).
Proof. intros w r w' H. inversion H; subst. split; [discriminate | lia]. Qed.

Lemma steady_bind {A B} (m : M A) (k : A -> M B) :
  steady m -> (forall a, steady (k a)) -> steady (bind m k).
Proof.
  intros Hm Hk w r w' H.
  destruct (bind_inv _ _ _ _ _ H) as [(a & w1 & H1 & H2) | [(e & H1 & ->) | [H1 _]]].
  - destruct (Hm _ _ _ H1) as [_ L1]. destruct (Hk a _ _ _ H2) as [N L2].
    split; [exact N | lia].
  - destruct (Hm _ _ _ H1) as [_ L1]. split; [discriminate | exact L1].
  - destruct (Hm _ _ _ H1) as [N _]. congruence.
Qed.

Lemma steady_interact env {A} (answer : nat -> A) ev :
  steady (interact env answer ev).
Proof.
  intros w r w' H. rewrite interact_eq in H. inversion H; subst.
  split; [discriminate | simpl; lia].
Qed.

Lemma steady_sleep secs : steady (sleep secs).
Proof.
  intros w r w' H. inversion H; subst. split; [discriminate | simpl; lia].
Qed.

Lemma steady_clock : steady clock.
Proof. intros w r w' H. inversion H; subst. split; [discriminate | lia]. Qed.

Lemma steady_try_except {A} (body : M A) handler :
  steady body -> (forall e h, handler e = Some h -> steady h) ->
  steady (try_except body handler).
Proof.
  intros Hb Hh w r w' H. unfold try_except in H.
  destruct (body w) as [[a | e |] w1] eqn:E.
  - inversion H; subst. exact (Hb _ _ _ E).
  - destruct (Hb _ _ _ E) as [_ L1].
    destruct (handler e) as [h |] eqn:Eh.
    + destruct (Hh _ _ Eh _ _ _ H) as [N L2]. split; [exact N | lia].
    + inversion H; subst. split; [discriminate | exact L1].
  - destruct (Hb _ _ _ E) as [N _]. congruence.
Qed.

(** ** The wait-poller *)

Lemma wait_loop_run func fail_func start num_sec delay fuel :
  forall w r w',
  wait_loop fuel func fail_func start num_sec delay w = (r, w') ->
  exists ats wk,
    polled func fail_func start num_sec delay w ats wk /\
    length ats <= fuel /\
    (finished func fail_func start num_sec delay wk r w' \/
     r = Diverged /\
     (length ats = fuel \/ func wk = (Diverged, w') \/
      exists w1, func wk = (Ok false, w1) /\ fail_func w1 = (Diverged, w'))).
Proof.
  induction fuel as [| fuel IH]; intros w r w' H; simpl in H.
  - inversion H; subst. exists [], w'. split; [constructor |].
    split; [simpl; lia |]. right. split; [reflexivity | left; reflexivity].
  - unfold bind at 1 in H. destruct (func w) as [[[] | e |] w1] eqn:Ef.
    + inversion H; subst. exists [], w. split; [constructor |].
      split; [simpl; lia |]. left. constructor. exact Ef.
    + unfold bind at 1 in H. destruct (fail_func w1) as [[[] | e |] w2] eqn:Eff.
      * change (bind (sleep delay) ?k w2) with (k tt (slept delay w2)) in H.
        unfold bind at 1, clock in H. cbv beta iota in H.
        destruct (num_sec <? now (slept delay w2) - start)%nat eqn:Et.
        -- apply Nat.ltb_lt in Et. inversion H; subst.
           exists [], w. split; [constructor |]. split; [simpl; lia |].
           left. eapply fin_timeout; eauto.
        -- apply Nat.ltb_ge in Et.
           destruct (IH _ _ _ H) as (ats & wk & Hp & Hl & Hf).
           exists ((w, w1) :: ats), wk. split; [econstructor; eauto |].
           split; [simpl; lia |].
           destruct Hf as [Hf | (-> & Hd)]; [left; exact Hf |].
           right. split; [reflexivity |].
           destruct Hd as [Hd | Hd]; [left; simpl; lia | right; exact Hd].
      * inversion H; subst. exists [], w. split; [constructor |].
        split; [simpl; lia |]. left. eapply fin_fail_raise; eauto.
      * inversion H; subst. exists [], w. split; [constructor |].
        split; [simpl; lia |]. right. split; [reflexivity |].
        right. right. eauto.
    + inversion H; subst. exists [], w. split; [constructor |].
      split; [simpl; lia |]. left. apply fin_raise. exact Ef.
    + inversion H; subst. exists [], w. split; [constructor |].
      split; [simpl; lia |]. right. split; [reflexivity |].
      right. left. exact Ef.
Qed.

Lemma polled_clock func fail_func start num_sec delay w ats wk :
  steady func -> steady fail_func ->
  polled func fail_func start num_sec delay w ats wk ->
  now w + length ats * delay <= now wk.
Proof.
  intros Hf Hff Hp. induction Hp as [w | w w1 w2 ats wk E1 E2 Hb Hp IH].
  - simpl. lia.
  - destruct (Hf _ _ _ E1) as [_ L1]. destruct (Hff _ _ _ E2) as [_ L2].
    simpl in *. lia.
Qed.

Lemma polled_budget func fail_func start num_sec delay w ats wk :
  polled func fail_func start num_sec delay w ats wk ->
  ats <> [] -> now wk - start <= num_sec.
Proof.
  intros Hp. induction Hp as [w | w w1 w2 ats wk E1 E2 Hb Hp IH].
  - congruence.
  - intros _. destruct ats as [| a ats].
    + inversion Hp; subst. exact Hb.
    + apply IH. discriminate.
Qed.

Lemma finished_steady func fail_func start num_sec delay wk r w' :
  steady func -> steady fail_func ->
  finished func fail_func start num_sec delay wk r w' ->
  r <> Diverged /\ now wk <= now w'.
Proof.
  intros Hf Hff [w1 E | e w1 E | e w1 w2 E1 E2 | w1 w2 E1 E2 Hb].
  - destruct (Hf _ _ _ E). split; [discriminate | assumption].
  - destruct (Hf _ _ _ E). split; [discriminate | assumption].
  - destruct (Hf _ _ _ E1). destruct (Hff _ _ _ E2).
    split; [discriminate | lia].
  - destruct (Hf _ _ _ E1). destruct (Hff _ _ _ E2).
    split; [discriminate | simpl; lia].
Qed.

(** With a positive delay the iteration bound of [wait_for] is never
    reached: a run is a sequence of failed attempts and a last one. *)
Lemma wait_for_run func num_sec delay fail_func w r w' :
  0 < delay -> steady func -> steady (default (ret tt) fail_func) ->
  wait_for func num_sec delay fail_func w = (r, w') ->
  exists ats wk,
    polled func (default (ret tt) fail_func) (now w) num_sec delay w ats wk /\
    finished func (default (ret tt) fail_func) (now w) num_sec delay wk r w'.
Proof.
  intros Hd Hf Hff H. unfold wait_for in H.
  unfold bind at 1, clock in H. cbv beta iota in H.
  destruct (wait_loop_run _ _ _ _ _ _ _ _ _ H) as (ats & wk & Hp & Hl & Hfin).
  exists ats, wk. split; [exact Hp |].
  destruct Hfin as [Hfin | (-> & Hdiv)]; [exact Hfin | exfalso].
  destruct Hdiv as [Hlen | [Hdiv | (w1 & E1 & Hdiv)]].
  - pose proof (polled_clock _ _ _ _ _ _ _ _ Hf Hff Hp) as Hc.
    assert (Hne : ats <> []) by (destruct ats; [discriminate | discriminate]).
    pose proof (polled_budget _ _ _ _ _ _ _ _ Hp Hne) as Hb.
    rewrite Hlen in Hc. nia.
  - destruct (Hf _ _ _ Hdiv) as [N _]. congruence.
  - destruct (Hff _ _ _ Hdiv) as [N _]. congruence.
Qed.

Lemma wait_for_none_run func num_sec delay w r w' :
  0 < delay -> steady func ->
  wait_for func num_sec delay None w = (r, w') ->
  exists ats wk,
    polled func (ret tt) (now w) num_sec delay w ats wk /\
    finished func (ret tt) (now w) num_sec delay wk r w'.
Proof.
  intros Hd Hf H.
  exact (wait_for_run func num_sec delay None w r w' Hd Hf (steady_ret tt) H).
Qed.

Lemma steady_wait_for func num_sec delay fail_func :
  0 < delay -> steady func -> steady (default (ret tt) fail_func) ->
  steady (wait_for func num_sec delay fail_func).
Proof.
  intros Hd Hf Hff w r w' H.
  destruct (wait_for_run _ _ _ _ _ _ _ Hd Hf Hff H) as (ats & wk & Hp & Hfin).
  pose proof (polled_clock _ _ _ _ _ _ _ _ Hf Hff Hp) as Hc.
  destruct (finished_steady _ _ _ _ _ _ _ _ Hf Hff Hfin) as [N L].
  split; [exact N | lia].
Qed.

Arguments wait_for : simpl never.

(** A successful [wait_for] ends with an attempt that returned true, and
    nothing happens after it. *)
Lemma wait_for_ok_last func num_sec delay fail_func w w' :
  wait_for func num_sec delay fail_func w = (Ok tt, w') ->
  exists wk, func wk = (Ok true, w').
Proof.
  intros H. unfold wait_for in H.
  unfold bind at 1, clock in H. cbv beta iota in H.
  destruct (wait_loop_run _ _ _ _ _ _ _ _ _ H) as (ats & wk & _ & _ & Hfin).
  destruct Hfin as [Hfin | [N _]]; [| discriminate].
  inversion Hfin; subst. eauto.
Qed.







(** *** The exceptions a program raises *)









Create HintDb steady.

#[local] Hint Resolve steady_ret steady_raise steady_interact steady_sleep
  steady_clock : steady.

Ltac steady_step :=
  lazymatch goal with
  | |- steady (wait_for _ _ _ _) => apply steady_wait_for; [lia | |]
  | |- steady (bind _ _) => apply steady_bind; [| intros ?]
  | |- steady (try_except _ _) => apply steady_try_except; [| intros ? ? ?]
  | |- steady (ret _) => apply steady_ret
  | |- steady (raise _) => apply steady_raise
  | |- steady (interact _ _ _) => apply steady_interact
  | |- steady (sleep _) => apply steady_sleep
  | |- steady (default _ None) => simpl
  | |- steady (default _ (Some _)) => simpl
  | |- steady (default _ ?o) => destruct o; simpl
  | |- steady (if ?b then _ else _) => destruct b
  | |- steady (match ?x with _ => _ end) => destruct x
  | H : match ?e with _ => _ end = Some _ |- _ =>
      destruct e; try discriminate; inversion H; subst; clear H
  | |- steady _ => solve [auto with steady]
  end.

Ltac steady_tac := repeat steady_step.

(** ** getattr *)

Section Getattr.

Context (env : Env).

(** A read accessor goes to the details page and reads its field,
    whatever the call names as its method. *)
Lemma getattr_call_accessor self a args table field :
  accessor_field a = Some (table, field) ->
  getattr_call env self (Some a) args =
  bind (navigate_to_Details env self)
       (fun view => get_text_of env view table field).
Proof.
  unfold getattr_call, accessor_field, power_state, location_led_state,
    cores_capacity, memory_capacity, variable_call.
  destruct (String.eqb a "power_state");
    [intros [= <- <-]; destruct (method_of_call args) as [[] |]; reflexivity |].
  destruct (String.eqb a "location_led_state");
    [intros [= <- <-]; destruct (method_of_call args) as [[] |]; reflexivity |].
  destruct (String.eqb a "cores_capacity");
    [intros [= <- <-]; destruct (method_of_call args) as [[] |]; reflexivity |].
  destruct (String.eqb a "memory_capacity");
    [intros [= <- <-]; destruct (method_of_call args) as [[] |]; reflexivity |].
  discriminate.
Qed.

(** Any other name is looked up among what else the entity has. *)
Lemma getattr_call_other self a args :
  accessor_field a = None ->
  getattr_call env self (Some a) args =
  match other_attribute env self a args with
  | Some call => call
  | None => raise (AttributeError a)
  end.
Proof.
  unfold getattr_call, accessor_field.
  destruct (String.eqb a "power_state"); [discriminate |].
  destruct (String.eqb a "location_led_state"); [discriminate |].
  destruct (String.eqb a "cores_capacity"); [discriminate |].
  destruct (String.eqb a "memory_capacity"); [discriminate |].
  reflexivity.
Qed.

(** A call this module decides is a [TypeError], the reading of a field,
    or an [AttributeError]. *)
Lemma getattr_call_determined self attr args :
  determined env self attr args ->
  getattr_call env self attr args =
  match attr with
  | None => raise TypeError
  | Some a =>
      match accessor_field a with
      | Some (table, field) =>
          bind (navigate_to_Details env self)
               (fun view => get_text_of env view table field)
      | None => raise (AttributeError a)
      end
  end.
Proof.
  destruct attr as [a |]; [| reflexivity]. cbn [determined]. intros Hd.
  destruct (accessor_field a) as [[table field] |] eqn:Ea.
  - apply getattr_call_accessor. exact Ea.
  - rewrite (getattr_call_other _ _ _ Ea), (Hd eq_refl). reflexivity.
Qed.

Lemma determined_accessor self a args table field :
  accessor_field a = Some (table, field) ->
  determined env self (Some a) args.
Proof. intros Ha. cbn [determined]. rewrite Ha. discriminate. Qed.

End Getattr.

Section SteadyPrograms.

Context (env : Env).

Lemma steady_navigate_to_Details self : steady (navigate_to_Details env self).
Proof. unfold navigate_to_Details, navigate_to_All, get_entity, act. steady_tac. Qed.


Lemma steady_last_refresh_date provider : steady (last_refresh_date env provider).
Proof. unfold last_refresh_date. steady_tac. Qed.

Lemma steady_refresh_date_changed provider stamp :
  steady (refresh_date_changed env provider stamp).
Proof.
  pose proof (steady_last_refresh_date provider).
  unfold refresh_date_changed. steady_tac.
Qed.

Lemma steady_execute_button self button option handle_alert :
  steady (_execute_button env self button option handle_alert).
Proof.
  pose proof (steady_navigate_to_Details self).
  unfold _execute_button, item_select, act. steady_tac.
Qed.

Lemma steady_refresh self provider handle_alert :
  steady (refresh env self provider handle_alert).
Proof.
  pose proof (steady_last_refresh_date provider).
  pose proof (steady_execute_button self).
  pose proof (steady_refresh_date_changed provider).
  unfold refresh. steady_tac.
Qed.


Lemma steady_send_request url verify_ssl :
  steady (_send_request env url verify_ssl).
Proof. unfold _send_request, requests_get_ok. steady_tac. Qed.

Lemma steady_not_send_request url verify_ssl :
  steady (not_send_request env url verify_ssl).
Proof.
  pose proof (steady_send_request url verify_ssl).
  unfold not_send_request. steady_tac.
Qed.

End SteadyPrograms.

(** ** Navigation and the toolbar *)

Lemma ticks_log env evs : forall w, log (ticks env evs w) = log w ++ evs.
Proof.
  induction evs as [| e evs IH]; intros w; simpl.
  - rewrite app_nil_r. reflexivity.
  - rewrite IH. simpl. rewrite <- app_assoc. reflexivity.
Qed.

Lemma ticks_step env evs : forall w, step (ticks env evs w) = length evs + step w.
Proof.
  induction evs as [| e evs IH]; intros w; simpl; [reflexivity |].
  rewrite IH. simpl. lia.
Qed.

Lemma ticks_now env evs :
  forall w, now (ticks env evs w) = now w + latencies env (step w) (length evs).
Proof.
  induction evs as [| e evs IH]; intros w; simpl; [lia |].
  rewrite IH. simpl. lia.
Qed.

Section Navigation.

Context (env : Env).

Lemma navigate_to_Details_eq self w :
  navigate_to_Details env self w =
  if on_some_page (name self) (listing env (S (step w)))
  then (Ok PhysicalServerDetailsView, ticks env (details_nav (name self)) w)
  else (Raise ItemNotFound, ticks env (details_nav_failed (name self)) w).
Proof.
  unfold navigate_to_Details, navigate_to_All, get_entity, act, bind, interact,
    ret, raise.
  cbn [step now log].
  destruct (on_some_page (name self) (listing env (S (step w)))); reflexivity.
Qed.

Lemma execute_button_eq self button option handle_alert w :
  _execute_button env self button option handle_alert w =
  if on_some_page (name self) (listing env (S (step w)))
  then (Ok PhysicalServerDetailsView,
        ticks env (details_nav (name self)
                   ++ [ItemSelect button option handle_alert]) w)
  else (Raise ItemNotFound, ticks env (details_nav_failed (name self)) w).
Proof.
  unfold _execute_button, bind. rewrite navigate_to_Details_eq.
  destruct (on_some_page (name self) (listing env (S (step w)))); reflexivity.
Qed.

(** Reading a field of the details page through an accessor. *)
Lemma read_field_eq self table field w :
  bind (navigate_to_Details env self)
       (fun view => get_text_of env view table field) w =
  if on_some_page (name self) (listing env (S (step w)))
  then (Ok (page_text env (3 + step w) table field),
        ticks env (details_nav (name self)
                   ++ [ReadText table field
                         (page_text env (3 + step w) table field)]) w)
  else (Raise ItemNotFound, ticks env (details_nav_failed (name self)) w).
Proof.
  unfold bind. rewrite navigate_to_Details_eq.
  destruct (on_some_page (name self) (listing env (S (step w)))); reflexivity.
Qed.

End Navigation.

(** ** refresh *)

Section Refresh.

Context (env : Env).



End Refresh.


(** ** _wait_restart_bmc *)

Section RestartBmc.

Context (env : Env).

Lemma send_request_eq url verify_ssl w :
  _send_request env url verify_ssl w =
  (match http env (step w) url with
   | Responded ok => Ok ok
   | ConnectionFailed => Ok false
   | RequestFailed => Raise RequestException
   end,
   ticked env (HttpGet url verify_ssl (http env (step w) url)) w).
Proof.
  unfold _send_request, try_except, requests_get_ok, bind.
  rewrite interact_eq. destruct (http env (step w) url); reflexivity.
Qed.

Lemma not_send_request_eq url verify_ssl w :
  not_send_request env url verify_ssl w =
  (match http env (step w) url with
   | Responded ok => Ok (negb ok)
   | ConnectionFailed => Ok true
   | RequestFailed => Raise RequestException
   end,
   ticked env (HttpGet url verify_ssl (http env (step w) url)) w).
Proof.
  unfold not_send_request, bind. rewrite send_request_eq.
  destruct (http env (step w) url); reflexivity.
Qed.



End RestartBmc.


(** ** The read accessors *)

Section Accessors.

Context (env : Env).

Lemma getattr_call_eq self attr args w :
  determined env self (Some attr) args ->
  getattr_call env self (Some attr) args w =
  match accessor_field attr with
  | Some (table, field) =>
      if on_some_page (name self) (listing env (S (step w)))
      then (Ok (page_text env (3 + step w) table field),
            ticks env (details_nav (name self)
                       ++ [ReadText table field
                             (page_text env (3 + step w) table field)]) w)
      else (Raise ItemNotFound, ticks env (details_nav_failed (name self)) w)
  | None => (Raise (AttributeError attr), w)
  end.
Proof.
  intros Hd. rewrite (getattr_call_determined env self _ _ Hd).
  destruct (accessor_field attr) as [[table field] |];
    [apply read_field_eq | reflexivity].
Qed.



End Accessors.

(** ** wait_for_state_change *)

Section StateChange.

Context (env : Env).









End StateChange.


(** ** The power actions *)

Section PowerActions.

Context (env : Env).

Lemma execute_action_button_polls self button option kwargs d w :
  kw_desired_state kwargs = Some d -> truthy d = true ->
  _execute_action_button env self button option kwargs w =
  if on_some_page (name self) (listing env (S (step w)))
  then wait_for_state_change env self d (kw_target kwargs) (kw_provider kwargs)
         PhysicalServerDetailsView
         (default 300 (kw_timeout kwargs)) (default 10 (kw_delay kwargs))
         (ticks env (details_nav (name self)
                     ++ [ItemSelect button option
                           (default true (kw_handle_alert kwargs))]) w)
  else (Raise ItemNotFound, ticks env (details_nav_failed (name self)) w).
Proof.
  intros Hd Ht. unfold _execute_action_button. rewrite Hd, Ht.
  unfold bind at 1. rewrite execute_button_eq.
  destruct (on_some_page (name self) (listing env (S (step w)))); reflexivity.
Qed.



End PowerActions.


(** ** exists *)

Lemma on_some_page_spec nm pages :
  on_some_page nm pages = true <->
  exists page, In page pages /\ In nm page.
Proof.
  unfold on_some_page. rewrite existsb_exists. split.
  - intros (page & Hp & Hn). apply existsb_exists in Hn.
    destruct Hn as (x & Hx & E). apply String.eqb_eq in E. subst x. eauto.
  - intros (page & Hp & Hn). exists page. split; [exact Hp |].
    apply existsb_exists. exists nm. split; [exact Hn |].
    apply String.eqb_refl.
Qed.

(** C5.  [exists] goes to the listing view and looks the entity's name up
    across the pages.  It returns a boolean and never raises; the boolean is
    true exactly when some page of the listing shows the name; and it is
    false exactly when the lookup raised [ItemNotFound], which [exists]
    catches. *)
Theorem exists_iff_on_some_page env self w :
  let pages := listing env (S (step w)) in
  let found := on_some_page (name self) pages in
  let at_listing :=
    ticks env [NavSelect ["Compute"; "Physical Infrastructure"; "Servers"]] w in
  exists_ env self w
    = (Ok found, ticked env (EntityLookup (name self) found) at_listing) /\
  (found = true <-> exists page, In page pages /\ In (name self) page) /\
  (found = false <->
   fst (get_entity env (name self) at_listing) = Raise ItemNotFound).
Proof.
  cbv zeta. split; [| split].
  - unfold exists_, navigate_to_All, get_entity, try_except, act, bind,
      interact, ret, raise. cbn [step now log ticks fold_left ticked].
    destruct (on_some_page (name self) (listing env (S (step w))));
      reflexivity.
  - apply on_some_page_spec.
  - unfold get_entity, bind, interact, ret, raise.
    cbn [step now log ticks fold_left ticked fst].
    destruct (on_some_page (name self) (listing env (S (step w))));
      split; intros E; (reflexivity || discriminate).
Qed.

(** ** all and find_by *)

Section CollectionFacts.

Context (get_crud_by_name : string -> Res Provider).

Lemma instantiate_rows_bound p rows :
  instantiate_rows get_crud_by_name (Some p) rows =
  Ok (map (fun row : query_row => instantiate row.1.1 row.2 p) rows).
Proof.
  induction rows as [| [[nm ems] ip] rows IH]; simpl; [reflexivity |].
  rewrite IH. reflexivity.
Qed.

Lemma instantiate_rows_looked_up rows :
  forall servers,
  instantiate_rows get_crud_by_name None rows = Ok servers ->
  Forall2 (fun (row : query_row) s =>
             exists p, get_crud_by_name row.1.2 = Ok p /\
                       s = instantiate row.1.1 row.2 p) rows servers.
Proof.
  induction rows as [| [[nm ems] ip] rows IH]; simpl; intros servers H.
  - injection H as <-. constructor.
  - destruct (get_crud_by_name ems) as [p | e |] eqn:Ep; simpl in H;
      try discriminate.
    destruct (instantiate_rows get_crud_by_name None rows) as [rest | e |];
      simpl in H; try discriminate.
    injection H as <-. constructor; [| apply IH; reflexivity].
    exists p. simpl. auto.
Qed.

Lemma first_named_bound p ph_name rows :
  first_named get_crud_by_name (Some p) ph_name rows =
  Ok ((fun row : query_row => instantiate row.1.1 row.2 p)
        <$> List.find (fun row : query_row => String.eqb ph_name row.1.1) rows).
Proof.
  induction rows as [| [[nm ems] ip] rows IH]; simpl; [reflexivity |].
  destruct (String.eqb ph_name nm); [reflexivity | exact IH].
Qed.

Lemma first_named_looked_up ph_name rows s :
  first_named get_crud_by_name None ph_name rows = Ok (Some s) ->
  exists row p,
    List.find (fun row : query_row => String.eqb ph_name row.1.1) rows
      = Some row /\
    get_crud_by_name row.1.2 = Ok p /\
    s = instantiate row.1.1 row.2 p.
Proof.
  induction rows as [| [[nm ems] ip] rows IH]; simpl; intros H;
    [discriminate |].
  destruct (String.eqb ph_name nm); [| exact (IH H)].
  destruct (get_crud_by_name ems) as [p | e |] eqn:Ep; simpl in H;
    try discriminate.
  injection H as <-. exists (nm, ems, ip), p. auto.
Qed.

Lemma first_named_absent provider ph_name rows :
  (forall row : query_row, In row rows -> row.1.1 <> ph_name) ->
  first_named get_crud_by_name provider ph_name rows = Ok None.
Proof.
  induction rows as [| [[nm ems] ip] rows IH]; simpl; intros H;
    [reflexivity |].
  destruct (String.eqb ph_name nm) eqn:E.
  - apply String.eqb_eq in E. exfalso.
    apply (H (nm, ems, ip)); [left; reflexivity | simpl; congruence].
  - apply IH. intros row Hr. apply H. right. exact Hr.
Qed.

End CollectionFacts.

(** C2.  [all(provider)] and [find_by(provider, name)] discard their
    [provider] argument: whatever is passed, the result is the same.  With
    a ['provider'] entry in the collection's filters the rows kept are the
    rows of the join whose management-system name is the name of the
    filter's provider, no lookup by name is made and neither method raises;
    without one all rows of the join are kept.  [all] returns one entity per
    kept row, in order, and [find_by] the entity of the first kept row that
    bears the name: the entity has the row's server name and address, and
    its provider is the filter's provider when there is one and otherwise
    what [get_crud_by_name] returned for the management-system name of the
    row -- never the argument. *)
Theorem all_find_by_discard_argument
  (get_crud_by_name : string -> Res Provider) self provider ph_name :
  let rows := physical_server_query (appliance_db self) in
  let bound := filters self !! "provider" in
  let kept :=
    match bound with
    | Some fp =>
        List.filter
          (fun row : query_row => String.eqb row.1.2 (provider_name fp)) rows
    | None => rows
    end in
  let resolve := fun ems : string =>
    match bound with
    | Some fp => Ok fp
    | None => get_crud_by_name ems
    end in
  let entity := fun (row : query_row) (q : Provider) =>
    {| name := row.1.1; provider := Some q; hostname := None;
       ip_address := row.2; custom_ident := None |} in
  let named := fun row : query_row => String.eqb ph_name row.1.1 in
  (forall other,
     all get_crud_by_name self other = all get_crud_by_name self provider /\
     find_by get_crud_by_name self other ph_name
       = find_by get_crud_by_name self provider ph_name) /\
  (forall servers,
     all get_crud_by_name self provider = Ok servers ->
     Forall2 (fun row s => exists q, resolve row.1.2 = Ok q /\ s = entity row q)
             kept servers) /\
  (forall s,
     find_by get_crud_by_name self provider ph_name = Ok (Some s) ->
     exists row q,
       List.find named kept = Some row /\
       resolve row.1.2 = Ok q /\ s = entity row q) /\
  (forall fp,
     bound = Some fp ->
     Forall (fun row : query_row => row.1.2 = provider_name fp) kept /\
     all get_crud_by_name self provider = Ok (map (fun row => entity row fp) kept) /\
     find_by get_crud_by_name self provider ph_name
       = Ok ((fun row => entity row fp) <$> List.find named kept)).
Proof.
  cbv zeta. split; [intros other; split; reflexivity |].
  unfold all, find_by.
  destruct (filters self !! "provider") as [fp |] eqn:Ef.
  - rewrite instantiate_rows_bound, first_named_bound.
    unfold filter_by_ems, instantiate. split; [| split].
    + intros servers [= <-].
      induction (List.filter _ _) as [| row kept IH]; constructor;
        [eexists; split; reflexivity | exact IH].
    + intros s E. injection E as E.
      destruct (List.find _ _) as [row |]; [| discriminate E].
      injection E as <-. exists row, fp. auto.
    + intros fp' [= <-]. split; [| split; reflexivity].
      apply List.Forall_forall. intros row Hr.
      apply List.filter_In in Hr as [_ Hn]. apply String.eqb_eq in Hn.
      exact Hn.
  - split; [| split; [| discriminate]].
    + intros servers E.
      eapply Forall2_impl;
        [apply (instantiate_rows_looked_up _ _ _ E) |].
      intros row s (q & Hq & ->). exists q. auto.
    + intros s E.
      destruct (first_named_looked_up _ _ _ _ E) as (row & q & Hf & Hq & ->).
      exists row, q. auto.
Qed.

(** C10.  If every row of the join that bears the name [ph_name] is
    excluded by the collection's provider filter -- in particular if the
    join has no row of that name -- then [find_by] returns [None] and
    raises nothing. *)
Theorem find_by_returns_none
  (get_crud_by_name : string -> Res Provider) self provider ph_name :
  (forall row : query_row,
     In row (physical_server_query (appliance_db self)) ->
     row.1.1 = ph_name ->
     exists p, filters self !! "provider" = Some p /\
               row.1.2 <> provider_name p) ->
  find_by get_crud_by_name self provider ph_name = Ok None.
Proof.
  intros H. unfold find_by.
  destruct (filters self !! "provider") as [p |] eqn:Ep.
  - apply first_named_absent. intros row Hr Hn.
    unfold filter_by_ems in Hr. apply filter_In in Hr.
    destruct Hr as [Hr Hf]. apply String.eqb_eq in Hf.
    destruct (H row Hr Hn) as (p' & Hp' & Hne).
    injection Hp' as <-. contradiction.
  - apply first_named_absent. intros row Hr Hn.
    destruct (H row Hr Hn) as (p' & Hp' & _). discriminate.
Qed.

(** ** validate_stats *)

Lemma yields_fst {A} (m : M A) r w : yields m r -> fst (m w) = r.
Proof. intros H. destruct (H w) as [w' ->]. reflexivity. Qed.

Lemma yields_ret {A} (a : A) : yields (ret a) (Ok a).
Proof. intros w. exists w. reflexivity. Qed.

Lemma yields_raise {A} e : yields (@raise A e) (Raise e).
Proof. intros w. exists w. reflexivity. Qed.

Lemma yields_bind {A B} (m : M A) (k : A -> M B) a r :
  yields m (Ok a) -> yields (k a) r -> yields (bind m k) r.
Proof.
  intros Hm Hk w. destruct (Hm w) as [w1 E1]. destruct (Hk w1) as [w2 E2].
  exists w2. unfold bind. rewrite E1. exact E2.
Qed.

Lemma yields_bind_raise {A B} (m : M A) (k : A -> M B) e :
  yields m (Raise e) -> yields (bind m k) (Raise e).
Proof.
  intros Hm w. destruct (Hm w) as [w1 E1]. exists w1.
  unfold bind. rewrite E1. reflexivity.
Qed.

Lemma yields_interact env {A} (answer : nat -> A) ev a :
  (forall n, answer n = a) -> yields (interact env answer ev) (Ok a).
Proof.
  intros H w. rewrite interact_eq, H. eexists. reflexivity.
Qed.

Lemma yields_try_ok {A} (body : M A) handler a :
  yields body (Ok a) -> yields (try_except body handler) (Ok a).
Proof.
  intros Hb w. destruct (Hb w) as [w1 E1]. exists w1.
  unfold try_except. rewrite E1. reflexivity.
Qed.

Lemma yields_try_uncaught {A} (body : M A) handler e :
  yields body (Raise e) -> handler e = None ->
  yields (try_except body handler) (Raise e).
Proof.
  intros Hb Hh w. destruct (Hb w) as [w1 E1]. exists w1.
  unfold try_except. rewrite E1, Hh. reflexivity.
Qed.

Lemma yields_try_caught {A} (body : M A) handler e h r :
  yields body (Raise e) -> handler e = Some h -> yields h r ->
  yields (try_except body handler) r.
Proof.
  intros Hb Hh Hr w. destruct (Hb w) as [w1 E1]. destruct (Hr w1) as [w2 E2].
  exists w2. unfold try_except. rewrite E1, Hh. exact E2.
Qed.

Lemma yields_for_each_pass {A} (body : A -> M unit) pre rest r :
  Forall (fun x => yields (body x) (Ok tt)) pre ->
  yields (for_each rest body) r ->
  yields (for_each (pre ++ rest) body) r.
Proof.
  intros Hpre Hrest. induction Hpre as [| x pre Hx Hpre IH]; simpl.
  - exact Hrest.
  - eapply yields_bind; [exact Hx | exact IH].
Qed.

Lemma yields_for_each_stop {A} (body : A -> M unit) x post e :
  yields (body x) (Raise e) -> yields (for_each (x :: post) body) (Raise e).
Proof. intros H. simpl. apply yields_bind_raise. exact H. Qed.

Section StillEnvironment.

Context (env : Env) (self : PhysicalServer) (client : Provider)
  (texts : string -> string -> string)
  (server_stats server_inventory : gmap string value).

Hypothesis Hstill : still env self client texts server_stats server_inventory.

Lemma yields_navigate_to_Details :
  yields (navigate_to_Details env self) (Ok PhysicalServerDetailsView).
Proof.
  destruct Hstill as (_ & Hl & _). intros w.
  rewrite navigate_to_Details_eq, Hl. eexists. reflexivity.
Qed.

Lemma yields_getattr_call attr args :
  determined env self (Some attr) args ->
  yields (getattr_call env self (Some attr) args)
    match accessor_field attr with
    | Some (table, field) => Ok (texts table field)
    | None => Raise (AttributeError attr)
    end.
Proof.
  intros Hdet. destruct Hstill as (_ & Hl & Ht & _). intros w.
  rewrite (getattr_call_eq env self attr args w Hdet).
  destruct (accessor_field attr) as [[table field] |].
  - rewrite Hl, Ht. eexists. reflexivity.
  - eexists. reflexivity.
Qed.

Lemma yields_int_ v :
  yields (int_ v) match py_int v with Some z => Ok z | None => Raise ValueError end.
Proof.
  unfold int_. destruct (py_int v); [apply yields_ret | apply yields_raise].
Qed.

Lemma yields_subscript (d : gmap string value) k :
  yields (subscript (inl d) k)
    match d !! k with Some v => Ok v | None => Raise (KeyError k) end.
Proof.
  unfold subscript. destruct (d !! k); [apply yields_ret | apply yields_raise].
Qed.

Lemma check_stat_yields ui k :
  key_determined env self ui k ->
  yields (check_stat env self ui server_stats k)
         (stat_verdict self texts server_stats k).
Proof.
  intros Hdet. unfold check_stat, stat_verdict.
  pose proof (yields_getattr_call k (MethodKw (method_of ui)) Hdet) as Hg.
  destruct (accessor_field k) as [[table field] |].
  2: { eapply yields_try_caught;
         [apply yields_bind_raise; exact Hg | reflexivity | apply yields_raise]. }
  pose proof (yields_int_ (VStr (texts table field))) as Hc.
  destruct (py_int (VStr (texts table field))) as [cfme_stat |].
  2: { apply yields_try_uncaught; [| reflexivity].
       eapply yields_bind; [exact Hg |]. apply yields_bind_raise. exact Hc. }
  pose proof (yields_subscript server_stats k) as Hr.
  destruct (server_stats !! k) as [remote |].
  2: { eapply yields_try_caught with (e := KeyError k);
         [| reflexivity | apply yields_raise].
       eapply yields_bind; [exact Hg |]. eapply yields_bind; [exact Hc |].
       apply yields_bind_raise. exact Hr. }
  pose proof (yields_int_ remote) as Hs.
  destruct (py_int remote) as [server_stat |].
  2: { apply yields_try_uncaught; [| reflexivity].
       eapply yields_bind; [exact Hg |]. eapply yields_bind; [exact Hc |].
       eapply yields_bind; [exact Hr |]. apply yields_bind_raise. exact Hs. }
  destruct (bool_decide (server_stat <> cfme_stat)) eqn:Ed.
  - apply yields_try_uncaught; [| reflexivity].
    eapply yields_bind; [exact Hg |]. eapply yields_bind; [exact Hc |].
    eapply yields_bind; [exact Hr |]. eapply yields_bind; [exact Hs |].
    rewrite Ed. apply yields_raise.
  - apply yields_try_ok.
    eapply yields_bind; [exact Hg |]. eapply yields_bind; [exact Hc |].
    eapply yields_bind; [exact Hr |]. eapply yields_bind; [exact Hs |].
    rewrite Ed. apply yields_ret.
Qed.

Lemma check_inventory_yields ui k :
  key_determined env self ui k ->
  yields (check_inventory env self ui (inl server_inventory) k)
         (inventory_verdict self texts server_inventory k).
Proof.
  intros Hdet. unfold check_inventory, inventory_verdict.
  pose proof (yields_getattr_call k (MethodKw (method_of ui)) Hdet) as Hg.
  destruct (accessor_field k) as [[table field] |].
  2: { eapply yields_try_caught;
         [apply yields_bind_raise; exact Hg | reflexivity | apply yields_raise]. }
  pose proof (yields_subscript server_inventory k) as Hr.
  destruct (server_inventory !! k) as [remote |].
  2: { eapply yields_try_caught with (e := KeyError k);
         [| reflexivity | apply yields_raise].
       eapply yields_bind; [exact Hg |]. apply yields_bind_raise. exact Hr. }
  destruct (bool_decide (remote <> VStr (texts table field))) eqn:Ed.
  - apply yields_try_uncaught; [| reflexivity].
    eapply yields_bind; [exact Hg |]. eapply yields_bind; [exact Hr |].
    rewrite Ed. apply yields_raise.
  - apply yields_try_ok.
    eapply yields_bind; [exact Hg |]. eapply yields_bind; [exact Hr |].
    rewrite Ed. apply yields_ret.
Qed.

(** After the first iteration [server_inventory] is bound to a value, and
    subscripting it is a [TypeError] that no clause catches. *)
Lemma check_inventory_rebound ui v k table field :
  accessor_field k = Some (table, field) ->
  yields (check_inventory env self ui (inr v) k) (Raise TypeError).
Proof.
  intros Ha. unfold check_inventory.
  pose proof (yields_getattr_call k (MethodKw (method_of ui))
                (determined_accessor env self k _ table field Ha)) as Hg.
  rewrite Ha in Hg.
  apply yields_try_uncaught; [| reflexivity].
  eapply yields_bind; [exact Hg |]. apply yields_bind_raise.
  apply yields_raise.
Qed.

(** The statements of [validate_stats] before its two loops. *)
Lemma validate_stats_of_loops stats_to_match inventory_to_match ui r :
  yields
    (do! for_each stats_to_match (check_stat env self ui server_stats) in
     do! for_fold inventory_to_match (inl server_inventory)
           (check_inventory env self ui) in
     ret tt) r ->
  yields (validate_stats_of env stats_to_match inventory_to_match self ui) r.
Proof.
  destruct Hstill as (Hp & Hl & Ht & Hs & Hi). intros H.
  unfold validate_stats_of.
  eapply yields_bind with (a := tt).
  { destruct ui; [| apply yields_ret]. unfold load_details.
    eapply yields_bind; [apply yields_navigate_to_Details | apply yields_ret]. }
  eapply yields_bind with (a := client).
  { unfold provider_mgmt. rewrite Hp. apply yields_ret. }
  eapply yields_bind with (a := server_stats).
  { unfold client_stats. apply yields_interact. exact Hs. }
  eapply yields_bind with (a := server_inventory).
  { unfold client_inventory. apply yields_interact. exact Hi. }
  eapply yields_bind with (a := tt).
  { destruct ui; [| apply yields_ret]. unfold browser_refresh, act.
    apply yields_interact. reflexivity. }
  exact H.
Qed.

End StillEnvironment.

Section ValidateStats.

Context (env : Env) (self : PhysicalServer) (client : Provider)
  (texts : string -> string -> string)
  (server_stats server_inventory : gmap string value).

Hypothesis Hstill : still env self client texts server_stats server_inventory.

Lemma stat_agrees_determined ui k :
  stat_agrees texts server_stats k -> key_determined env self ui k.
Proof.
  intros (table & field & remote & z & Ha & _).
  eapply determined_accessor. exact Ha.
Qed.

Lemma stat_agrees_verdict k :
  stat_agrees texts server_stats k ->
  stat_verdict self texts server_stats k = Ok tt.
Proof.
  intros (table & field & remote & z & Ha & Hc & Hr & Hs).
  unfold stat_verdict. rewrite Ha, Hc, Hr, Hs.
  rewrite bool_decide_eq_false_2; [reflexivity | intros N; apply N; reflexivity].
Qed.

Lemma stats_loop_passes ui keys :
  Forall (stat_agrees texts server_stats) keys ->
  Forall (fun k => yields (check_stat env self ui server_stats k) (Ok tt)) keys.
Proof.
  intros H. eapply Forall_impl; [exact H |]. intros k Hk. simpl.
  rewrite <- (stat_agrees_verdict k Hk).
  eapply check_stat_yields; [exact Hstill |].
  apply stat_agrees_determined. exact Hk.
Qed.

(** A stat key whose predecessors pass and whose own check raises decides
    the outcome of [validate_stats]. *)
Lemma validate_stats_of_stat_raises ui pre k post inventory_to_match e w :
  Forall (stat_agrees texts server_stats) pre ->
  key_determined env self ui k ->
  stat_verdict self texts server_stats k = Raise e ->
  fst (validate_stats_of env (pre ++ k :: post) inventory_to_match self ui w)
    = Raise e.
Proof.
  intros Hpre Hdet Hk. apply yields_fst.
  eapply validate_stats_of_loops; [exact Hstill |].
  apply yields_bind_raise. apply yields_for_each_pass.
  - apply stats_loop_passes. exact Hpre.
  - apply yields_for_each_stop. rewrite <- Hk.
    eapply check_stat_yields; [exact Hstill | exact Hdet].
Qed.

(** With all stat keys passing, the first inventory key decides. *)
Lemma validate_stats_of_first_inventory ui stats_to_match k w :
  Forall (stat_agrees texts server_stats) stats_to_match ->
  key_determined env self ui k ->
  fst (validate_stats_of env stats_to_match [k] self ui w) =
  match inventory_verdict self texts server_inventory k with
  | Ok _ => Ok tt
  | Raise e => Raise e
  | Diverged => Diverged
  end.
Proof.
  intros Hs Hdet. apply yields_fst.
  eapply validate_stats_of_loops; [exact Hstill |].
  eapply yields_bind with (a := tt).
  { rewrite <- (app_nil_r stats_to_match). apply yields_for_each_pass.
    - apply stats_loop_passes. exact Hs.
    - apply yields_ret. }
  pose proof (check_inventory_yields env self client texts server_stats
                server_inventory Hstill ui k Hdet) as Hi.
  cbn [for_fold].
  destruct (inventory_verdict self texts server_inventory k) as [s | e |].
  - eapply yields_bind; [| apply yields_ret].
    eapply yields_bind; [exact Hi | apply yields_ret].
  - apply yields_bind_raise. apply yields_bind_raise. exact Hi.
  - intros w0. destruct (Hi w0) as [w1 E]. exists w1.
    unfold bind. rewrite E. reflexivity.
Qed.


End ValidateStats.






(** C9.  In a still environment, let the stat keys before [k] pass and let
    the entity have the accessor [k].  If the accessor's reading is not an
    integer literal, or it is one and the remote value of [k] is present but
    is not an integer literal, then [validate_stats] raises [ValueError]:
    [int()] raises it and neither [except] clause catches it. *)
Theorem validate_stats_value_error env self client texts server_stats
  server_inventory ui pre k post inventory_to_match table field w :
  still env self client texts server_stats server_inventory ->
  Forall (stat_agrees texts server_stats) pre ->
  accessor_field k = Some (table, field) ->
  py_int (VStr (texts table field)) = None \/
  (exists z remote,
     py_int (VStr (texts table field)) = Some z /\
     server_stats !! k = Some remote /\ py_int remote = None) ->
  fst (validate_stats_of env (pre ++ k :: post) inventory_to_match self ui w)
    = Raise ValueError /\
  stats_handlers (A := unit)
    "Server stats information does not contain '{}'" k ValueError = None.
Proof.
  intros Hstill Hpre Ha Hbad. split; [| reflexivity].
  eapply validate_stats_of_stat_raises;
    [exact Hstill | exact Hpre | eapply determined_accessor; exact Ha |].
  unfold stat_verdict. rewrite Ha.
  destruct Hbad as [Hc | (z & remote & Hc & Hr & Hs)].
  - rewrite Hc. reflexivity.
  - rewrite Hc, Hr, Hs. reflexivity.
Qed.

Lemma stat_agrees_intro texts server_stats k table field remote z z' :
  accessor_field k = Some (table, field) ->
  py_int (VStr (texts table field)) = Some z ->
  server_stats !! k = Some remote ->
  py_int remote = Some z' ->
  bool_decide (z' <> z) = false ->
  stat_agrees texts server_stats k.
Proof.
  intros Ha Hc Hr Hs Hd. exists table, field, remote, z.
  repeat (split; [assumption |]).
  apply bool_decide_eq_false in Hd.
  destruct (decide (z' = z)) as [-> | N]; [exact Hs | contradiction].
Qed.

(** C1, as amended.  In a still environment in which both stat keys have
    integer readings on both sides and the remote inventory has
    [power_state], [validate_stats] compares [int()] of the remote and of
    the UI value of [cores_capacity], then of [memory_capacity], then the
    remote and the UI value of [power_state] themselves; it raises
    [StatsDoNotMatch] for the first of the three whose two compared values
    differ, with a message that names the key, the server and both compared
    values, and it returns without an exception when none differ. *)
Theorem validate_stats_first_mismatch env self client texts server_stats
  server_inventory ui w cores cores' memory memory'
  (remote_cores remote_memory power : value) :
  still env self client texts server_stats server_inventory ->
  py_int (VStr (texts "properties" "CPU total cores")) = Some cores ->
  server_stats !! "cores_capacity" = Some remote_cores ->
  py_int remote_cores = Some cores' ->
  py_int (VStr (texts "properties" "Total memory (mb)")) = Some memory ->
  server_stats !! "memory_capacity" = Some remote_memory ->
  py_int remote_memory = Some memory' ->
  server_inventory !! "power_state" = Some power ->
  fst (validate_stats env self ui w) =
  if bool_decide (cores' <> cores) then
    Raise (stat_mismatch self "cores_capacity" cores' cores)
  else if bool_decide (memory' <> memory) then
    Raise (stat_mismatch self "memory_capacity" memory' memory)
  else if bool_decide (power <> VStr (texts "power_management" "Power State"))
  then
    Raise (inventory_mismatch self "power_state" power
             (texts "power_management" "Power State"))
  else Ok tt.
Proof.
  intros Hstill Hc Hrc Hsc Hm Hrm Hsm Hp.
  unfold validate_stats, STATS_TO_MATCH, INVENTORY_TO_MATCH.
  assert (Ac : accessor_field "cores_capacity"
               = Some ("properties", "CPU total cores")) by reflexivity.
  assert (Am : accessor_field "memory_capacity"
               = Some ("properties", "Total memory (mb)")) by reflexivity.
  assert (Ap : accessor_field "power_state"
               = Some ("power_management", "Power State")) by reflexivity.
  destruct (bool_decide (cores' <> cores)) eqn:Ec.
  { apply (validate_stats_of_stat_raises env self client texts server_stats
             server_inventory Hstill ui [] "cores_capacity"
             ["memory_capacity"]);
      [constructor | eapply determined_accessor; exact Ac |].
    unfold stat_verdict. rewrite Ac, Hc, Hrc, Hsc, Ec. reflexivity. }
  pose proof (stat_agrees_intro _ _ _ _ _ _ _ _ Ac Hc Hrc Hsc Ec) as Gc.
  destruct (bool_decide (memory' <> memory)) eqn:Em.
  { apply (validate_stats_of_stat_raises env self client texts server_stats
             server_inventory Hstill ui ["cores_capacity"] "memory_capacity"
             []);
      [constructor; [exact Gc | constructor]
      | eapply determined_accessor; exact Am |].
    unfold stat_verdict. rewrite Am, Hm, Hrm, Hsm, Em. reflexivity. }
  pose proof (stat_agrees_intro _ _ _ _ _ _ _ _ Am Hm Hrm Hsm Em) as Gm.
  rewrite (validate_stats_of_first_inventory env self client texts
             server_stats server_inventory Hstill ui
             ["cores_capacity"; "memory_capacity"] "power_state" w);
    [| constructor; [exact Gc | constructor; [exact Gm | constructor]]
     | eapply determined_accessor; exact Ap].
  unfold inventory_verdict. rewrite Ap, Hp.
  destruct (bool_decide (power <> VStr (texts "power_management" "Power State")));
    reflexivity.
Qed.

(** * Scenarios *)

Lemma lab_still texts stats inventory :
  still (lab texts stats inventory) lab_server lab_provider texts stats
        inventory.
Proof. repeat split. Qed.

(** In the laboratory with the UI showing 16384 MB against the remote 32768,
    the amended C1 gives the mismatch of the spec's scenario. *)
Lemma validate_stats_first_mismatch_witness :
  fst (validate_stats (lab (lab_texts "16" "16384" "on") lab_stats lab_inventory)
         lab_server false boot)
  = Raise (StatsDoNotMatch
             "The memory_capacity stat does not match. (server: srv1, server stat: 32768, cfme stat: 16384)").
Proof.
  exact (validate_stats_first_mismatch
           (lab (lab_texts "16" "16384" "on") lab_stats lab_inventory)
           lab_server lab_provider (lab_texts "16" "16384" "on")
           lab_stats lab_inventory false boot 16 16 16384 32768
           (VInt 16) (VInt 32768) (VStr "on")
           (lab_still _ _ _) eq_refl eq_refl eq_refl eq_refl eq_refl eq_refl
           eq_refl).
Defined.

(** Against C1 as stated: every key's UI value equals its remote value
    exactly, and [validate_stats] raises. *)
Lemma validate_stats_equal_values_raise :
  let texts := lab_texts "n/a" "16384" "on" in
  let stats : gmap string value :=
    {[ "cores_capacity" := VStr "n/a"; "memory_capacity" := VStr "16384" ]} in
  stats !! "cores_capacity" = Some (VStr (texts "properties" "CPU total cores")) /\
  stats !! "memory_capacity"
    = Some (VStr (texts "properties" "Total memory (mb)")) /\
  lab_inventory !! "power_state"
    = Some (VStr (texts "power_management" "Power State")) /\
  fst (validate_stats (lab texts stats lab_inventory) lab_server false boot)
  = Raise ValueError.
Proof. vm_compute. repeat split. Qed.



(** C9 in the laboratory: a UI reading that is not a number. *)
Lemma validate_stats_value_error_witness :
  py_int (VStr "n/a") = None /\
  fst (validate_stats (lab (lab_texts "n/a" "32768" "on") lab_stats lab_inventory)
         lab_server false boot)
  = Raise ValueError.
Proof.
  split; [reflexivity |].
  exact (proj1 (validate_stats_value_error
                  (lab (lab_texts "n/a" "32768" "on") lab_stats lab_inventory)
                  lab_server lab_provider (lab_texts "n/a" "32768" "on")
                  lab_stats lab_inventory false [] "cores_capacity"
                  ["memory_capacity"] INVENTORY_TO_MATCH
                  "properties" "CPU total cores" boot
                  (lab_still _ _ _) (List.Forall_nil _) eq_refl
                  (or_introl eq_refl))).
Defined.






(** C10 in the laboratory: the join has one row, for "srv1"; looking for
    "srv2" returns [None]. *)
Lemma find_by_returns_none_witness :
  physical_server_query lab_db = [("srv1", "lenovo", Some "10.0.0.1")] /\
  find_by lab_crud lab_collection (Some lab_provider) "srv2" = Ok None.
Proof.
  split; [reflexivity |].
  apply (find_by_returns_none lab_crud lab_collection (Some lab_provider)
           "srv2").
  intros row Hin Hn. exfalso.
  change (In row [("srv1", "lenovo", Some "10.0.0.1")]) in Hin.
  destruct Hin as [<- | []]. discriminate Hn.
Defined.

(** In the laboratory [all] and [find_by] hand back the server with the
    provider looked up by the name of its management system, whatever
    provider the caller passes. *)
Example all_ignores_argument_example :
  all lab_crud lab_collection (Some {| provider_name := "other" |})
  = Ok [instantiate "srv1" (Some "10.0.0.1") lab_provider] /\
  find_by lab_crud lab_collection (Some {| provider_name := "other" |}) "srv1"
  = Ok (Some (instantiate "srv1" (Some "10.0.0.1") lab_provider)).
Proof. split; reflexivity. Qed.

(** With a filter on another provider the join's only row is excluded. *)
Example all_filtered_example :
  all lab_crud
      {| filters := {[ "provider" := {| provider_name := "other" |} ]};
         appliance_db := lab_db |}
      (Some lab_provider)
  = Ok [].
Proof. vm_compute. reflexivity. Qed.

(** [exists] in the laboratory: "srv1" is on the second page, "srv9" on
    none. *)
Example exists_example :
  fst (exists_ lab_on lab_server boot) = Ok true /\
  fst (exists_ lab_on
         {| name := "srv9"; provider := None; hostname := None;
            ip_address := None; custom_ident := None |} boot) = Ok false.
Proof. split; reflexivity. Qed.

(** The spec's scenario of matching statistics: 16 cores and 32768 MB on
    both sides, power state "on". *)
Example validate_stats_match_example :
  fst (validate_stats lab_on lab_server false boot) = Ok tt /\
  fst (validate_stats lab_on lab_server true boot) = Ok tt.
Proof. vm_compute. split; reflexivity. Qed.

(** * Further properties *)

(** ** What a program adds to the log *)

Lemma adds_ret P {A} (a : A) : adds P (ret a).
Proof.
  intros w r w' H. inversion H; subst. exists []. rewrite app_nil_r.
  split; [reflexivity | constructor].
Qed.

Lemma adds_raise P {A} e : adds P (@raise A e).
Proof.
  intros w r w' H. inversion H; subst. exists []. rewrite app_nil_r.
  split; [reflexivity | constructor].
Qed.

Lemma adds_bind P {A B} (m : M A) (k : A -> M B) :
  adds P m -> (forall a, adds P (k a)) -> adds P (bind m k).
Proof.
  intros Hm Hk w r w' H.
  destruct (bind_inv _ _ _ _ _ H) as [(a & w1 & H1 & H2) | [(e & H1 & ->) | [H1 _]]].
  - destruct (Hm _ _ _ H1) as (l1 & E1 & F1).
    destruct (Hk a _ _ _ H2) as (l2 & E2 & F2).
    exists (l1 ++ l2). rewrite E2, E1, <- app_assoc.
    split; [reflexivity | apply Forall_app; auto].
  - exact (Hm _ _ _ H1).
  - exact (Hm _ _ _ H1).
Qed.

Lemma adds_interact P env {A} (answer : nat -> A) ev :
  (forall a, P (ev a)) -> adds P (interact env answer ev).
Proof.
  intros Hp w r w' H. rewrite interact_eq in H. inversion H; subst.
  eexists. split; [reflexivity |]. constructor; [apply Hp | constructor].
Qed.

Lemma adds_sleep (P : event -> Prop) secs : P (Sleep secs) -> adds P (sleep secs).
Proof.
  intros Hp w r w' H. inversion H; subst.
  eexists. split; [reflexivity |]. constructor; [exact Hp | constructor].
Qed.

Lemma adds_clock P : adds P clock.
Proof.
  intros w r w' H. inversion H; subst. exists []. rewrite app_nil_r.
  split; [reflexivity | constructor].
Qed.

Lemma adds_try_except P {A} (body : M A) handler :
  adds P body -> (forall e h, handler e = Some h -> adds P h) ->
  adds P (try_except body handler).
Proof.
  intros Hb Hh w r w' H. unfold try_except in H.
  destruct (body w) as [[a | e |] w1] eqn:E.
  - inversion H; subst. exact (Hb _ _ _ E).
  - destruct (Hb _ _ _ E) as (l1 & E1 & F1).
    destruct (handler e) as [h |] eqn:Eh.
    + destruct (Hh _ _ Eh _ _ _ H) as (l2 & E2 & F2).
      exists (l1 ++ l2). rewrite E2, E1, <- app_assoc.
      split; [reflexivity | apply Forall_app; auto].
    + inversion H; subst. eauto.
  - inversion H; subst. exact (Hb _ _ _ E).
Qed.

Lemma adds_wait_loop (P : event -> Prop) func fail_func start num_sec delay :
  adds P func -> adds P fail_func -> P (Sleep delay) ->
  forall fuel, adds P (wait_loop fuel func fail_func start num_sec delay).
Proof.
  intros Hf Hff Hs fuel. induction fuel as [| fuel IH].
  - intros w r w' H. inversion H; subst. exists []. rewrite app_nil_r.
    split; [reflexivity | constructor].
  - cbn [wait_loop]. apply adds_bind; [exact Hf |]. intros [].
    + apply adds_ret.
    + apply adds_bind; [exact Hff |]. intros _.
      apply adds_bind; [apply adds_sleep; exact Hs |]. intros _.
      apply adds_bind; [apply adds_clock |]. intros t.
      destruct (num_sec <? t - start)%nat; [apply adds_raise | exact IH].
Qed.

Lemma adds_wait_for (P : event -> Prop) func num_sec delay fail_func :
  adds P func -> adds P (default (ret tt) fail_func) -> P (Sleep delay) ->
  adds P (wait_for func num_sec delay fail_func).
Proof.
  intros Hf Hff Hs. unfold wait_for.
  apply adds_bind; [apply adds_clock |]. intros start.
  apply adds_wait_loop; assumption.
Qed.

Lemma adds_weaken (P Q : event -> Prop) {A} (m : M A) :
  (forall e, P e -> Q e) -> adds P m -> adds Q m.
Proof.
  intros Hpq Hm w r w' H. destruct (Hm _ _ _ H) as (l & E & F).
  exists l. split; [exact E |]. eapply Forall_impl; [exact F | exact Hpq].
Qed.

(** One step of a proof that a program adds only entries of a kind; the
    side conditions on single entries are left to the caller. *)
Ltac adds_step :=
  lazymatch goal with
  | |- adds _ (wait_for _ _ _ _) => apply adds_wait_for
  | |- adds _ (bind _ _) => apply adds_bind; [| intros ?]
  | |- adds _ (try_except _ _) => apply adds_try_except; [| intros ? ? ?]
  | |- adds _ (ret _) => apply adds_ret
  | |- adds _ (raise _) => apply adds_raise
  | |- adds _ (interact _ _ _) => apply adds_interact; intros ?
  | |- adds _ (sleep _) => apply adds_sleep
  | |- adds _ (default _ None) => simpl
  | |- adds _ (default _ (Some _)) => simpl
  | |- adds _ (if ?b then _ else _) => destruct b
  | |- adds _ (match ?x with _ => _ end) => destruct x
  | H : match ?e with _ => _ end = Some _ |- _ =>
      destruct e; try discriminate; inversion H; subst; clear H
  | |- adds _ _ => solve [auto]
  end.

Ltac adds_tac := repeat adds_step.

(** ** What follows the press of an action button *)

Section AfterTheButton.

Context (env : Env).

Lemma adds_navigate_to_Details self :
  adds (fun e => polls_only e = true) (navigate_to_Details env self).
Proof.
  unfold navigate_to_Details, navigate_to_All, get_entity, act.
  adds_tac; reflexivity.
Qed.

Lemma adds_refresh self provider handle_alert :
  adds (fun e => polls_only e = true) (refresh env self provider handle_alert).
Proof.
  pose proof (adds_navigate_to_Details self).
  unfold refresh, refresh_date_changed, last_refresh_date, _execute_button,
    item_select, act.
  adds_tac; reflexivity.
Qed.

Lemma adds_getattr_call self attr args :
  determined env self attr args ->
  adds (fun e => polls_only e = true) (getattr_call env self attr args).
Proof.
  intros Hd. rewrite (getattr_call_determined env self attr args Hd).
  pose proof (adds_navigate_to_Details self).
  unfold get_text_of. adds_tac; reflexivity.
Qed.

Lemma adds_wait_for_state_change self d target provider view timeout delay :
  determined env self target NoArgs ->
  adds (fun e => polls_only e = true)
       (wait_for_state_change env self d target provider view timeout delay).
Proof.
  intros Hd.
  pose proof (adds_refresh self provider true).
  pose proof (adds_getattr_call self target NoArgs Hd).
  unfold wait_for_state_change, _is_state_changed, browser_refresh, act.
  adds_tac; reflexivity.
Qed.

(** The target of an action matters only when a desired state is given. *)
Lemma adds_after_button self kwargs view :
  (forall d, kw_desired_state kwargs = Some d -> truthy d = true ->
             determined env self (kw_target kwargs) NoArgs) ->
  adds (fun e => polls_only e = true)
    match kw_desired_state kwargs with
    | Some d =>
        if truthy d then
          wait_for_state_change env self d (kw_target kwargs)
            (kw_provider kwargs) view
            (default 300 (kw_timeout kwargs)) (default 10 (kw_delay kwargs))
        else if default true (kw_handle_alert kwargs)
             then wait_for (flash_is_displayed env view) 5 2 None
             else ret tt
    | None =>
        if default true (kw_handle_alert kwargs)
        then wait_for (flash_is_displayed env view) 5 2 None
        else ret tt
    end.
Proof.
  intros Hdet.
  assert (Hflash : adds (fun e => polls_only e = true)
                     (if default true (kw_handle_alert kwargs)
                      then wait_for (flash_is_displayed env view) 5 2 None
                      else ret tt)).
  { unfold flash_is_displayed. adds_tac; reflexivity. }
  destruct (kw_desired_state kwargs) as [d |]; [| exact Hflash].
  destruct (truthy d) eqn:Et; [| exact Hflash].
  apply adds_wait_for_state_change. exact (Hdet d eq_refl Et).
Qed.

End AfterTheButton.

(** X1.  For a server that the listing shows, an action selects its
    toolbar item once and only once, right after the navigation to the
    details view: all it does afterwards is polling -- refreshing the
    inventory through Configuration / Refresh Relationships and Power
    States, reloading and reading the page, checking the flash banner,
    sleeping.  This holds whatever the keyword arguments, provided that,
    when a desired state is given, the call of the target is one the module
    decides: the target is missing, names a read accessor, or names nothing
    the entity has. *)
Theorem action_button_selected_once env self button option kwargs w r w' :
  on_some_page (name self) (listing env (S (step w))) = true ->
  (forall d, kw_desired_state kwargs = Some d -> truthy d = true ->
             determined env self (kw_target kwargs) NoArgs) ->
  _execute_action_button env self button option kwargs w = (r, w') ->
  exists rest,
    log w' = log w ++ details_nav (name self)
                   ++ [ItemSelect button option
                         (default true (kw_handle_alert kwargs))]
                   ++ rest /\
    Forall (fun e => polls_only e = true) rest.
Proof.
  intros Hl Hdet H. unfold _execute_action_button in H.
  unfold bind at 1 in H. rewrite execute_button_eq, Hl in H.
  destruct (adds_after_button env self kwargs PhysicalServerDetailsView
              Hdet _ _ _ H) as (rest & E & F).
  exists rest. split; [| exact F].
  rewrite E, ticks_log, <- !app_assoc. reflexivity.
Qed.

Lemma action_button_selected_once_witness :
  let run := power_on lab_on lab_server (lab_kwargs "on") boot in
  exists rest,
    log (snd run) = log boot ++ details_nav "srv1"
                      ++ [ItemSelect "Power" "Power On" true] ++ rest /\
    Forall (fun e => polls_only e = true) rest.
Proof.
  cbv zeta.
  assert (Hl : on_some_page (name lab_server) (listing lab_on (S (step boot)))
               = true) by reflexivity.
  assert (Hd : forall d, kw_desired_state (lab_kwargs "on") = Some d ->
                 truthy d = true ->
                 determined lab_on lab_server (kw_target (lab_kwargs "on"))
                   NoArgs)
    by (intros d _ _ N; discriminate N).
  unfold power_on.
  destruct (_execute_action_button lab_on lab_server "Power" "Power On"
              (lab_kwargs "on") boot) as [r w'] eqn:E.
  exact (action_button_selected_once lab_on lab_server "Power" "Power On"
           (lab_kwargs "on") boot r w' Hl Hd E).
Defined.

(** ** validate_stats: the second inventory key *)

(** X3.  The second inventory key can never be checked.  In a still
    environment, with all stat keys passing and the first inventory key
    present and equal on both sides, a second inventory key the entity has
    an accessor for makes [validate_stats] raise [TypeError], whatever the
    remote inventory holds for it: the first iteration left
    [server_inventory] bound to a value instead of the mapping. *)
Theorem validate_stats_second_inventory_key env self client texts server_stats
  server_inventory ui stats_to_match k1 k2 rest table1 field1 table2 field2 w :
  still env self client texts server_stats server_inventory ->
  Forall (stat_agrees texts server_stats) stats_to_match ->
  accessor_field k1 = Some (table1, field1) ->
  server_inventory !! k1 = Some (VStr (texts table1 field1)) ->
  accessor_field k2 = Some (table2, field2) ->
  fst (validate_stats_of env stats_to_match (k1 :: k2 :: rest) self ui w)
  = Raise TypeError.
Proof.
  intros Hstill Hs H1 Hr H2. apply yields_fst.
  eapply validate_stats_of_loops; [exact Hstill |].
  eapply yields_bind with (a := tt).
  { rewrite <- (app_nil_r stats_to_match). apply yields_for_each_pass.
    - eapply stats_loop_passes; [exact Hstill | exact Hs].
    - apply yields_ret. }
  apply yields_bind_raise. cbn [for_fold].
  pose proof (check_inventory_yields env self client texts server_stats
                server_inventory Hstill ui k1
                (determined_accessor env self k1 _ table1 field1 H1)) as Hk.
  unfold inventory_verdict in Hk. rewrite H1, Hr in Hk.
  rewrite bool_decide_eq_false_2 in Hk by (intros N; apply N; reflexivity).
  eapply yields_bind; [exact Hk |]. cbn [for_fold].
  apply yields_bind_raise.
  eapply check_inventory_rebound; [exact Hstill | exact H2].
Qed.

Lemma validate_stats_second_inventory_key_witness :
  let inventory : gmap string value :=
    {[ "power_state" := VStr "on"; "location_led_state" := VStr "Off" ]} in
  fst (validate_stats_of
         (lab (lab_texts "16" "32768" "on") lab_stats inventory)
         STATS_TO_MATCH ["power_state"; "location_led_state"] lab_server false
         boot)
  = Raise TypeError.
Proof.
  cbv zeta.
  apply (validate_stats_second_inventory_key
           (lab (lab_texts "16" "32768" "on") lab_stats
                {[ "power_state" := VStr "on";
                   "location_led_state" := VStr "Off" ]})
           lab_server lab_provider (lab_texts "16" "32768" "on") lab_stats
           {[ "power_state" := VStr "on"; "location_led_state" := VStr "Off" ]}
           false STATS_TO_MATCH "power_state" "location_led_state" []
           "power_management" "Power State" "properties" "Identify LED State"
           boot (lab_still _ _ _)).
  - constructor; [| constructor; [| constructor]].
    + exists "properties", "CPU total cores", (VInt 16), 16%Z. repeat split.
    + exists "properties", "Total memory (mb)", (VInt 32768), 32768%Z.
      repeat split.
  - reflexivity.
  - reflexivity.
  - reflexivity.
Defined.

(** ** validate_stats: what it touches and how it fails early *)

Lemma adds_for_each P {A} (l : list A) (body : A -> M unit) :
  Forall (fun x => adds P (body x)) l -> adds P (for_each l body).
Proof.
  intros Hb. induction Hb as [| x l Hx Hb IH]; cbn [for_each].
  - apply adds_ret.
  - apply adds_bind; [exact Hx | intros _; exact IH].
Qed.

Lemma adds_for_fold P {A S} (l : list A) (body : S -> A -> M S) :
  Forall (fun x => forall s, adds P (body s x)) l ->
  forall s, adds P (for_fold l s body).
Proof.
  intros Hb. induction Hb as [| x l Hx Hb IH]; intros s; cbn [for_fold].
  - apply adds_ret.
  - apply adds_bind; [apply Hx | intros s'; apply IH].
Qed.

Section ValidateFrame.

Context (env : Env).

Lemma looks_navigate_to_Details self :
  adds (fun e => looks_only e = true) (navigate_to_Details env self).
Proof.
  unfold navigate_to_Details, navigate_to_All, get_entity, act.
  adds_tac; reflexivity.
Qed.

Lemma looks_getattr_call self attr args :
  determined env self attr args ->
  adds (fun e => looks_only e = true) (getattr_call env self attr args).
Proof.
  intros Hd. rewrite (getattr_call_determined env self attr args Hd).
  pose proof (looks_navigate_to_Details self).
  unfold get_text_of. adds_tac; reflexivity.
Qed.

Lemma looks_check_stat self ui server_stats k :
  key_determined env self ui k ->
  adds (fun e => looks_only e = true) (check_stat env self ui server_stats k).
Proof.
  intros Hd.
  pose proof (looks_getattr_call self (Some k) (MethodKw (method_of ui)) Hd).
  unfold check_stat, stats_handlers, int_, subscript.
  adds_tac; reflexivity.
Qed.

Lemma looks_check_inventory self ui server_inventory k :
  key_determined env self ui k ->
  adds (fun e => looks_only e = true)
       (check_inventory env self ui server_inventory k).
Proof.
  intros Hd.
  pose proof (looks_getattr_call self (Some k) (MethodKw (method_of ui)) Hd).
  unfold check_inventory, stats_handlers, subscript.
  adds_tac; reflexivity.
Qed.

End ValidateFrame.

(** X4.  [validate_stats] only looks.  With the keys of the class -- and
    with any keys each of which names a read accessor or nothing the entity
    has -- whatever the environment and the outcome, all it adds to the log
    is navigation to the details view, lookups in the listing, reloads of
    the page, readings of fields and the two queries of the
    management-system client: it selects no toolbar item, starts no refresh
    of the inventory, sends no request and never sleeps. *)
Theorem validate_stats_only_looks env stats_to_match inventory_to_match self ui
  w r w' :
  Forall (key_determined env self ui) (stats_to_match ++ inventory_to_match) ->
  validate_stats_of env stats_to_match inventory_to_match self ui w = (r, w') ->
  exists l, log w' = log w ++ l /\ Forall (fun e => looks_only e = true) l.
Proof.
  intros Hkeys. apply Forall_app in Hkeys as [Hks Hki].
  revert w r w'.
  change (adds (fun e => looks_only e = true)
               (validate_stats_of env stats_to_match inventory_to_match self ui)).
  pose proof (looks_navigate_to_Details env self).
  assert (Hs : forall server_stats,
             adds (fun e => looks_only e = true)
               (for_each stats_to_match (check_stat env self ui server_stats))).
  { intros server_stats. apply adds_for_each.
    eapply Forall_impl; [exact Hks |]. intros k Hk.
    apply looks_check_stat. exact Hk. }
  assert (Hi : forall s,
             adds (fun e => looks_only e = true)
               (for_fold inventory_to_match s (check_inventory env self ui))).
  { apply adds_for_fold.
    eapply Forall_impl; [exact Hki |]. intros k Hk s.
    apply looks_check_inventory. exact Hk. }
  unfold validate_stats_of, load_details, provider_mgmt, client_stats,
    client_inventory, browser_refresh, flush_widget_cache, act.
  repeat (first [ apply Hs | apply Hi | adds_step ]); reflexivity.
Qed.

Lemma validate_stats_only_looks_witness :
  let run := validate_stats lab_on lab_server true boot in
  exists l, log (snd run) = log boot ++ l /\
            Forall (fun e => looks_only e = true) l.
Proof.
  cbv zeta. unfold validate_stats.
  destruct (validate_stats_of lab_on STATS_TO_MATCH INVENTORY_TO_MATCH
              lab_server true boot) as [r w'] eqn:E.
  refine (validate_stats_only_looks lab_on STATS_TO_MATCH INVENTORY_TO_MATCH
            lab_server true boot r w' _ E).
  repeat constructor; intros N; discriminate N.
Defined.





(** ** A desired state without its companions *)

Lemma wait_for_first_raise func num_sec delay fail_func w e w' :
  func w = (Raise e, w') ->
  wait_for func num_sec delay fail_func w = (Raise e, w').
Proof.
  intros H. unfold wait_for. unfold bind at 1, clock. cbn [wait_loop].
  unfold bind at 1. rewrite H. reflexivity.
Qed.

Section DesiredState.

Context (env : Env).

(** Without an attribute to call, an attempt cannot but raise. *)
Lemma is_state_changed_no_attribute self d target provider view w :
  target = None \/
  (exists a, target = Some a /\ accessor_field a = None /\
             other_attribute env self a NoArgs = None) ->
  exists e w',
    _is_state_changed env self d target provider view w = (Raise e, w') /\
    (forall w2, refresh env self provider true w = (Ok tt, w2) ->
       e = match target with
           | None => TypeError
           | Some a => AttributeError a
           end).
Proof.
  intros Ht. unfold _is_state_changed. unfold bind at 1.
  destruct (refresh env self provider true w) as [[[] | e |] w2] eqn:Er.
  - unfold bind at 1, browser_refresh, act. rewrite interact_eq.
    unfold bind at 1.
    destruct Ht as [-> | (a & -> & Ha & Ho)].
    + cbn [getattr_call]. unfold raise. do 2 eexists.
      split; [reflexivity |]. intros w3 E. reflexivity.
    + rewrite (getattr_call_other env self a NoArgs Ha), Ho.
      unfold raise. do 2 eexists.
      split; [reflexivity |]. intros w3 E. reflexivity.
  - exists e, w2. split; [reflexivity |]. intros w3 E. discriminate.
  - destruct (steady_refresh env self provider true _ _ _ Er) as [N _].
    congruence.
Qed.

End DesiredState.

(** X7.  An action called with a (non-empty) [desired_state] but without a
    [target], or with a [target] that names nothing the entity has, never
    succeeds.  On a server that the listing shows the button is pressed all
    the same; then the first attempt of the poll raises, and that exception
    is the action's.  If the refresh of that attempt went through, the
    exception is the [TypeError] of [getattr(self, None)] or the
    [AttributeError] of the unknown name. *)
Theorem action_without_target_fails env self button option kwargs d w r w' :
  kw_desired_state kwargs = Some d -> truthy d = true ->
  kw_target kwargs = None \/
  (exists a, kw_target kwargs = Some a /\ accessor_field a = None /\
             other_attribute env self a NoArgs = None) ->
  on_some_page (name self) (listing env (S (step w))) = true ->
  _execute_action_button env self button option kwargs w = (r, w') ->
  let pressed :=
    ticks env (details_nav (name self)
               ++ [ItemSelect button option
                     (default true (kw_handle_alert kwargs))]) w in
  exists e,
    r = Raise e /\
    _is_state_changed env self d (kw_target kwargs) (kw_provider kwargs)
      PhysicalServerDetailsView pressed = (Raise e, w') /\
    (forall w2,
       refresh env self (kw_provider kwargs) true pressed = (Ok tt, w2) ->
       e = match kw_target kwargs with
           | None => TypeError
           | Some a => AttributeError a
           end).
Proof.
  intros Hd Ht Htarget Hl H. cbv zeta.
  rewrite (execute_action_button_polls env self button option kwargs d w Hd Ht),
    Hl in H.
  match type of H with
  | wait_for_state_change _ _ _ _ _ _ _ _ ?w0 = _ => set (pressed := w0) in *
  end.
  destruct (is_state_changed_no_attribute env self d (kw_target kwargs)
              (kw_provider kwargs) PhysicalServerDetailsView pressed Htarget)
    as (e & w1 & E & He).
  unfold wait_for_state_change in H.
  rewrite (wait_for_first_raise _ _ _ _ _ _ _ E) in H.
  exists e. split; [congruence |].
  split; [congruence | exact He].
Qed.

Lemma action_without_target_fails_witness :
  let kwargs :=
    {| kw_handle_alert := None; kw_target := None;
       kw_provider := Some lab_provider; kw_desired_state := Some "on";
       kw_timeout := None; kw_delay := None |} in
  exists e, fst (power_on lab_on lab_server kwargs boot) = Raise e.
Proof.
  cbv zeta. unfold power_on.
  destruct (_execute_action_button lab_on lab_server "Power" "Power On" _ boot)
    as [r w'] eqn:E.
  destruct (action_without_target_fails lab_on lab_server "Power" "Power On"
              {| kw_handle_alert := None; kw_target := None;
                 kw_provider := Some lab_provider;
                 kw_desired_state := Some "on";
                 kw_timeout := None; kw_delay := None |}
              "on" boot r w' eq_refl eq_refl (or_introl eq_refl) eq_refl E)
    as (e & -> & _).
  exists e. reflexivity.
Defined.

(** X8.  An action called with a (non-empty) [desired_state] but without a
    [provider]: the button is pressed, and then the poll's first attempt
    fails at [provider.last_refresh_date()], before any refresh or reading.
    The action raises [AttributeError] with the toolbar item already
    selected. *)
Theorem action_without_provider_fails env self button option kwargs d w :
  kw_desired_state kwargs = Some d -> truthy d = true ->
  kw_provider kwargs = None ->
  on_some_page (name self) (listing env (S (step w))) = true ->
  _execute_action_button env self button option kwargs w =
  (Raise (AttributeError "last_refresh_date"),
   ticks env (details_nav (name self)
              ++ [ItemSelect button option
                    (default true (kw_handle_alert kwargs))]) w).
Proof.
  intros Hd Ht Hp Hl.
  rewrite (execute_action_button_polls env self button option kwargs d w Hd Ht).
  rewrite Hl, Hp. unfold wait_for_state_change.
  apply wait_for_first_raise. reflexivity.
Qed.

Lemma action_without_provider_fails_witness :
  let kwargs :=
    {| kw_handle_alert := None; kw_target := Some "power_state";
       kw_provider := None; kw_desired_state := Some "off";
       kw_timeout := None; kw_delay := None |} in
  power_off lab_on lab_server kwargs boot =
  (Raise (AttributeError "last_refresh_date"),
   ticks lab_on (details_nav "srv1" ++ [ItemSelect "Power" "Power Off" true])
         boot).
Proof.
  exact (action_without_provider_fails lab_on lab_server "Power" "Power Off"
           {| kw_handle_alert := None; kw_target := Some "power_state";
              kw_provider := None; kw_desired_state := Some "off";
              kw_timeout := None; kw_delay := None |} "off" boot
           eq_refl eq_refl eq_refl eq_refl).
Defined.

(** ** An action without a desired state *)

Section FlashBanner.

Context (env : Env).

Lemma polled_flash_log view start num_sec delay w ats wk :
  polled (flash_is_displayed env view) (ret tt) start num_sec delay w ats wk ->
  log wk = log w ++ flash_wait delay (length ats).
Proof.
  intros Hp. induction Hp as [w | w w1 w2 ats wk E1 E2 Hb Hp IH].
  - unfold flash_wait. simpl. rewrite app_nil_r. reflexivity.
  - unfold flash_is_displayed in E1. rewrite interact_eq in E1.
    injection E1 as Eb Ew. injection E2 as <-. rewrite IH. subst w1.
    rewrite Eb. unfold flash_wait. simpl. rewrite <- !app_assoc. reflexivity.
Qed.

End FlashBanner.

(** X9.  An action called without a desired state (none, or the empty
    string) never polls the server's state.  With [handle_alert] left at its
    default or set, it waits for the flash banner: it checks the banner
    at most three times, two seconds apart, returns as soon as a check finds
    it, and raises [TimedOutError] once more than five seconds have gone
    without.  With [handle_alert=False] it returns right after the
    selection. *)
Theorem action_without_desired_state env self button option kwargs w r w' :
  (forall d, kw_desired_state kwargs = Some d -> truthy d = false) ->
  on_some_page (name self) (listing env (S (step w))) = true ->
  _execute_action_button env self button option kwargs w = (r, w') ->
  let handle_alert := default true (kw_handle_alert kwargs) in
  let pressed :=
    ticks env (details_nav (name self)
               ++ [ItemSelect button option handle_alert]) w in
  if handle_alert then
    exists k, k <= 2 /\
      ((r = Ok tt /\
        log w' = log pressed ++ flash_wait 2 k ++ [FlashDisplayed true]) \/
       (r = Raise TimedOutError /\
        log w' = log pressed ++ flash_wait 2 (S k) /\
        5 < now w' - now pressed))
  else r = Ok tt /\ w' = pressed.
Proof.
  intros Hd Hl H. cbv zeta. unfold _execute_action_button in H.
  unfold bind at 1 in H. rewrite execute_button_eq, Hl in H.
  set (handle_alert := default true (kw_handle_alert kwargs)) in *.
  set (pressed := ticks env _ w) in *. clearbody pressed.
  assert (Hk :
    (if handle_alert
     then wait_for (flash_is_displayed env PhysicalServerDetailsView) 5 2 None
     else ret tt) pressed = (r, w')).
  { destruct (kw_desired_state kwargs) as [d |] eqn:Ed; [| exact H].
    rewrite (Hd d eq_refl) in H. exact H. }
  clear H. destruct handle_alert.
  2: { injection Hk as <- <-. auto. }
  assert (H2 : 0 < 2) by (clear; lia).
  destruct (wait_for_none_run _ _ _ _ _ _ H2
              (steady_interact env (flash env) FlashDisplayed) Hk)
    as (ats & wk & Hp & Hfin).
  pose proof (polled_flash_log env PhysicalServerDetailsView _ _ _ _ _ _ Hp)
    as Hlog.
  pose proof (polled_clock _ _ _ _ _ _ _ _
                (steady_interact env (flash env) FlashDisplayed)
                (steady_ret tt) Hp) as Hc.
  assert (Hlen : length ats <= 2).
  { destruct ats as [| a ats]; [simpl; clear; lia |].
    assert (Hb : now wk - now pressed <= 5)
      by (eapply polled_budget; [exact Hp | discriminate]).
    clear - Hc Hb. simpl in *. lia. }
  exists (length ats). split; [exact Hlen |].
  inversion Hfin as [w1 E | e w1 E | e w1 w2 E1 E2 | w1 w2 E1 E2 Hb]; subst.
  - left. split; [reflexivity |].
    unfold flash_is_displayed in E. rewrite interact_eq in E.
    injection E as Eb Ew. subst w'. cbn [log ticked].
    rewrite Hlog, Eb, <- !app_assoc. reflexivity.
  - unfold flash_is_displayed in E. rewrite interact_eq in E. discriminate.
  - discriminate.
  - right. split; [reflexivity |].
    unfold flash_is_displayed in E1. rewrite interact_eq in E1.
    injection E1 as Eb Ew. injection E2 as <-. subst w1.
    split; [| exact Hb].
    cbn [log ticked slept]. rewrite Hlog, Eb. unfold flash_wait.
    replace (S (length ats)) with (length ats + 1) by (clear; lia).
    rewrite replicate_add, concat_app. simpl.
    rewrite <- !app_assoc. reflexivity.
Qed.

Lemma action_without_desired_state_witness :
  let kwargs :=
    {| kw_handle_alert := None; kw_target := None; kw_provider := None;
       kw_desired_state := None; kw_timeout := None; kw_delay := None |} in
  let run := turn_on_loc_led lab_on lab_server kwargs boot in
  let pressed :=
    ticks lab_on (details_nav "srv1" ++ [ItemSelect "Identify" "Turn On LED" true])
          boot in
  exists k, k <= 2 /\
    ((fst run = Ok tt /\
      log (snd run) = log pressed ++ flash_wait 2 k ++ [FlashDisplayed true]) \/
     (fst run = Raise TimedOutError /\
      log (snd run) = log pressed ++ flash_wait 2 (S k) /\
      5 < now (snd run) - now pressed)).
Proof.
  cbv zeta. unfold turn_on_loc_led.
  destruct (_execute_action_button lab_on lab_server "Identify" "Turn On LED"
              {| kw_handle_alert := None; kw_target := None;
                 kw_provider := None; kw_desired_state := None;
                 kw_timeout := None; kw_delay := None |} boot)
    as [r w'] eqn:E.
  refine (action_without_desired_state lab_on lab_server "Identify"
            "Turn On LED"
            {| kw_handle_alert := None; kw_target := None;
               kw_provider := None; kw_desired_state := None;
               kw_timeout := None; kw_delay := None |} boot r w' _ eq_refl E).
  intros d Hd. discriminate Hd.
Defined.

(** ** wait_to_appear and wait_for_delete *)

Section WaitsFacts.

Context (env : Env).

Lemma exists_eq self w :
  exists_ env self w =
  (Ok (on_some_page (name self) (listing env (S (step w)))),
   ticks env (listing_check (name self)
                (on_some_page (name self) (listing env (S (step w))))) w).
Proof.
  unfold exists_, navigate_to_All, get_entity, try_except, act, bind,
    interact, ret, raise. cbn [step now log ticks fold_left ticked listing_check].
  destruct (on_some_page (name self) (listing env (S (step w)))); reflexivity.
Qed.

Lemma not_exists_eq self w :
  not_exists env self w =
  (Ok (negb (on_some_page (name self) (listing env (S (step w))))),
   ticks env (listing_check (name self)
                (on_some_page (name self) (listing env (S (step w))))) w).
Proof. unfold not_exists, bind. rewrite exists_eq. reflexivity. Qed.

Lemma steady_exists self : steady (exists_ env self).
Proof.
  intros w r w' H. rewrite exists_eq in H. split; [congruence |].
  assert (Ew : ticks env (listing_check (name self)
                 (on_some_page (name self) (listing env (S (step w))))) w = w')
    by congruence.
  rewrite <- Ew, ticks_now. lia.
Qed.

Lemma steady_not_exists self : steady (not_exists env self).
Proof.
  intros w r w' H. rewrite not_exists_eq in H. split; [congruence |].
  assert (Ew : ticks env (listing_check (name self)
                 (on_some_page (name self) (listing env (S (step w))))) w = w')
    by congruence.
  rewrite <- Ew, ticks_now. lia.
Qed.

Lemma steady_browser_refresh : steady (browser_refresh env).
Proof. unfold browser_refresh, act. apply steady_interact. Qed.

Lemma polled_appear_log self start num_sec delay w ats wk :
  polled (exists_ env self) (browser_refresh env) start num_sec delay w ats wk ->
  log wk = log w ++ listing_wait (name self) false delay (length ats).
Proof.
  intros Hp. induction Hp as [w | w w1 w2 ats wk E1 E2 Hb Hp IH].
  - unfold listing_wait. simpl. rewrite app_nil_r. reflexivity.
  - rewrite exists_eq in E1. injection E1 as Eb Ew.
    unfold browser_refresh, act in E2. rewrite interact_eq in E2.
    injection E2 as <-. rewrite IH. subst w1. rewrite Eb.
    unfold listing_wait. simpl. rewrite <- !app_assoc. reflexivity.
Qed.

Lemma polled_delete_log self start num_sec delay w ats wk :
  polled (not_exists env self) (browser_refresh env) start num_sec delay
         w ats wk ->
  log wk = log w ++ listing_wait (name self) true delay (length ats).
Proof.
  intros Hp. induction Hp as [w | w w1 w2 ats wk E1 E2 Hb Hp IH].
  - unfold listing_wait. simpl. rewrite app_nil_r. reflexivity.
  - rewrite not_exists_eq in E1. injection E1 as Eb Ew.
    apply negb_false_iff in Eb.
    unfold browser_refresh, act in E2. rewrite interact_eq in E2.
    injection E2 as <-. rewrite IH. subst w1. rewrite Eb.
    unfold listing_wait. simpl. rewrite <- !app_assoc. reflexivity.
Qed.

End WaitsFacts.

(** X10.  [wait_to_appear] goes to the listing and then evaluates [exists]
    again and again, reloading the browser and sleeping after each
    evaluation that did not find the server.  With a positive delay it
    always ends, in one of two ways: it returns right after an evaluation
    that found the server, or it raises [TimedOutError] when no evaluation
    found it and more than 1000 seconds have passed since the polling
    began. *)
Theorem wait_to_appear_until_listed env default_delay self w r w' :
  0 < default_delay ->
  wait_to_appear env default_delay self w = (r, w') ->
  let at_listing :=
    ticks env [NavSelect ["Compute"; "Physical Infrastructure"; "Servers"]] w in
  exists k,
    (r = Ok tt /\
     log w' = log at_listing
       ++ listing_wait (name self) false default_delay k
       ++ listing_check (name self) true) \/
    (r = Raise TimedOutError /\
     log w' = log at_listing
       ++ listing_wait (name self) false default_delay (S k) /\
     1000 < now w' - now at_listing).
Proof.
  intros Hd H. cbv zeta. unfold wait_to_appear in H.
  unfold bind at 1, navigate_to_All, act in H.
  unfold bind at 1 in H. rewrite interact_eq in H. unfold ret at 1 in H.
  cbv beta iota in H.
  change (ticked env ?e w) with (ticks env [e] w) in H.
  set (at_listing := ticks env _ w) in *. clearbody at_listing.
  destruct (wait_for_run (exists_ env self) 1000 default_delay
              (Some (browser_refresh env)) at_listing r w' Hd
              (steady_exists env self) (steady_browser_refresh env) H)
    as (ats & wk & Hp & Hfin).
  cbn [default] in Hp, Hfin.
  pose proof (polled_appear_log _ _ _ _ _ _ _ _ Hp) as Hlog.
  exists (length ats).
  inversion Hfin as [w1 E | e w1 E | e w1 w2 E1 E2 | w1 w2 E1 E2 Hb]; subst.
  - left. split; [reflexivity |]. rewrite exists_eq in E.
    assert (Eb : on_some_page (name self) (listing env (S (step wk))) = true)
      by congruence.
    rewrite Eb in E.
    assert (Ew : ticks env (listing_check (name self) true) wk = w')
      by congruence.
    rewrite <- Ew, ticks_log, Hlog, <- !app_assoc. reflexivity.
  - rewrite exists_eq in E. discriminate.
  - unfold id, browser_refresh, act, interact in E2. discriminate E2.
  - right. split; [reflexivity |]. rewrite exists_eq in E1.
    assert (Eb : on_some_page (name self) (listing env (S (step wk))) = false)
      by congruence.
    rewrite Eb in E1.
    assert (Ew : ticks env (listing_check (name self) false) wk = w1)
      by congruence.
    unfold id, browser_refresh, act, interact in E2. cbv beta in E2.
    assert (Ew2 : ticked env BrowserRefresh w1 = w2)
      by (unfold ticked; congruence).
    split; [| exact Hb].
    rewrite <- Ew2, <- Ew. cbn [log slept ticked]. rewrite ticks_log, Hlog.
    unfold listing_wait.
    replace (S (length ats)) with (length ats + 1) by (clear; lia).
    rewrite replicate_add, concat_app. simpl.
    rewrite <- !app_assoc. reflexivity.
Qed.

(** The spec's scenario: the server appears in the listing after the first
    reload. *)
Lemma wait_to_appear_until_listed_witness :
  let run := wait_to_appear (lab_late 4) 1 lab_server boot in
  fst run = Ok tt /\
  exists k,
    log (snd run) =
      [NavSelect ["Compute"; "Physical Infrastructure"; "Servers"]]
      ++ listing_wait "srv1" false 1 k ++ listing_check "srv1" true.
Proof.
  cbv zeta.
  assert (Hrun : fst (wait_to_appear (lab_late 4) 1 lab_server boot) = Ok tt)
    by (vm_compute; reflexivity).
  destruct (wait_to_appear (lab_late 4) 1 lab_server boot) as [r w'] eqn:E.
  cbn [fst snd] in *. subst r. split; [reflexivity |].
  assert (Hd : 0 < 1) by lia.
  destruct (wait_to_appear_until_listed (lab_late 4) 1 lab_server boot
              (Ok tt) w' Hd E) as (k & [(_ & Hlog) | (N & _)]).
  - exists k. exact Hlog.
  - discriminate N.
Defined.

(** X11.  [wait_for_delete] is the mirror image: it returns right after an
    evaluation of [exists] that did not find the server, and raises
    [TimedOutError] when every evaluation found it and more than 500
    seconds have passed since the polling began. *)
Theorem wait_for_delete_until_gone env default_delay self w r w' :
  0 < default_delay ->
  wait_for_delete env default_delay self w = (r, w') ->
  let at_listing :=
    ticks env [NavSelect ["Compute"; "Physical Infrastructure"; "Servers"]] w in
  exists k,
    (r = Ok tt /\
     log w' = log at_listing
       ++ listing_wait (name self) true default_delay k
       ++ listing_check (name self) false) \/
    (r = Raise TimedOutError /\
     log w' = log at_listing
       ++ listing_wait (name self) true default_delay (S k) /\
     500 < now w' - now at_listing).
Proof.
  intros Hd H. cbv zeta. unfold wait_for_delete in H.
  unfold bind at 1, navigate_to_All, act in H.
  unfold bind at 1 in H. rewrite interact_eq in H. unfold ret at 1 in H.
  cbv beta iota in H.
  change (ticked env ?e w) with (ticks env [e] w) in H.
  set (at_listing := ticks env _ w) in *. clearbody at_listing.
  destruct (wait_for_run (not_exists env self) 500 default_delay
              (Some (browser_refresh env)) at_listing r w' Hd
              (steady_not_exists env self) (steady_browser_refresh env) H)
    as (ats & wk & Hp & Hfin).
  cbn [default] in Hp, Hfin.
  pose proof (polled_delete_log _ _ _ _ _ _ _ _ Hp) as Hlog.
  exists (length ats).
  inversion Hfin as [w1 E | e w1 E | e w1 w2 E1 E2 | w1 w2 E1 E2 Hb]; subst.
  - left. split; [reflexivity |]. rewrite not_exists_eq in E.
    assert (Eb : on_some_page (name self) (listing env (S (step wk))) = false)
      by (apply negb_true_iff; congruence).
    rewrite Eb in E.
    assert (Ew : ticks env (listing_check (name self) false) wk = w')
      by congruence.
    rewrite <- Ew, ticks_log, Hlog, <- !app_assoc. reflexivity.
  - rewrite not_exists_eq in E. discriminate.
  - unfold id, browser_refresh, act, interact in E2. discriminate E2.
  - right. split; [reflexivity |]. rewrite not_exists_eq in E1.
    assert (Eb : on_some_page (name self) (listing env (S (step wk))) = true)
      by (apply negb_false_iff; congruence).
    rewrite Eb in E1.
    assert (Ew : ticks env (listing_check (name self) true) wk = w1)
      by congruence.
    unfold id, browser_refresh, act, interact in E2. cbv beta in E2.
    assert (Ew2 : ticked env BrowserRefresh w1 = w2)
      by (unfold ticked; congruence).
    split; [| exact Hb].
    rewrite <- Ew2, <- Ew. cbn [log slept ticked]. rewrite ticks_log, Hlog.
    unfold listing_wait.
    replace (S (length ats)) with (length ats + 1) by (clear; lia).
    rewrite replicate_add, concat_app. simpl.
    rewrite <- !app_assoc. reflexivity.
Qed.

Lemma wait_for_delete_until_gone_witness :
  let gone :=
    {| name := "srv9"; provider := None; hostname := None;
       ip_address := None; custom_ident := None |} in
  let run := wait_for_delete lab_on 1 gone boot in
  fst run = Ok tt /\
  exists k,
    log (snd run) =
      [NavSelect ["Compute"; "Physical Infrastructure"; "Servers"]]
      ++ listing_wait "srv9" true 1 k ++ listing_check "srv9" false.
Proof.
  cbv zeta.
  set (gone := {| name := "srv9"; provider := None; hostname := None;
                  ip_address := None; custom_ident := None |}).
  assert (Hrun : fst (wait_for_delete lab_on 1 gone boot) = Ok tt)
    by (vm_compute; reflexivity).
  destruct (wait_for_delete lab_on 1 gone boot) as [r w'] eqn:E.
  cbn [fst snd] in *. subst r. split; [reflexivity |].
  assert (Hd : 0 < 1) by lia.
  destruct (wait_for_delete_until_gone lab_on 1 gone boot (Ok tt) w' Hd E)
    as (k & [(_ & Hlog) | (N & _)]).
  - exists k. exact Hlog.
  - discriminate N.
Defined.

(** ** The LED actions *)





(** ** How often _wait_restart_bmc asks *)

Section ProbeCount.

Context (env : Env) (url : string) (verify_ssl : bool).

Lemma requests_app l1 l2 : requests (l1 ++ l2) = requests l1 + requests l2.
Proof. unfold requests. rewrite List.filter_app, List.length_app. reflexivity. Qed.

Lemma polled_requests func start num_sec delay w ats wk :
  one_request env url verify_ssl func ->
  polled func (ret tt) start num_sec delay w ats wk ->
  exists l,
    log wk = log w ++ l /\
    Forall (fun e => is_http e = true \/ e = Sleep delay) l /\
    requests l = length ats.
Proof.
  intros Hone Hp. induction Hp as [w | w w1 w2 ats wk E1 E2 Hb Hp IH].
  - exists []. rewrite app_nil_r. repeat split. constructor.
  - destruct IH as (l & El & Fl & Rl).
    rewrite (Hone _ _ _ E1) in E2. injection E2 as <-.
    cbn [log slept ticked] in El.
    exists ([HttpGet url verify_ssl (http env (step w) url); Sleep delay] ++ l).
    split; [rewrite El, <- !app_assoc; reflexivity |].
    split.
    + constructor; [left; reflexivity |].
      constructor; [right; reflexivity | exact Fl].
    + rewrite requests_app, Rl. reflexivity.
Qed.

Lemma poll_requests func num_sec delay w r w' :
  0 < delay -> steady func -> one_request env url verify_ssl func ->
  wait_for func num_sec delay None w = (r, w') ->
  exists l,
    log w' = log w ++ l /\
    Forall (fun e => is_http e = true \/ e = Sleep delay) l /\
    1 <= requests l <= num_sec / delay + 1.
Proof.
  intros Hd Hs Hone H.
  destruct (wait_for_none_run _ _ _ _ _ _ Hd Hs H) as (ats & wk & Hp & Hfin).
  destruct (polled_requests _ _ _ _ _ _ _ Hone Hp) as (l & El & Fl & Rl).
  assert (Hlen : length ats <= num_sec / delay).
  { apply Nat.div_le_lower_bound; [lia |].
    destruct ats as [| a ats]; [simpl; lia |].
    pose proof (polled_clock _ _ _ _ _ _ _ _ Hs (steady_ret tt) Hp) as Hc.
    assert (Hb : now wk - now w <= num_sec)
      by (eapply polled_budget; [exact Hp | discriminate]).
    clear - Hc Hb. simpl in *. nia. }
  inversion Hfin as [w1 E | e w1 E | e w1 w2 E1 E2 | w1 w2 E1 E2 Hb]; subst.
  - rewrite (Hone _ _ _ E). cbn [log ticked].
    exists (l ++ [HttpGet url verify_ssl (http env (step wk) url)]).
    split; [rewrite El, <- app_assoc; reflexivity |].
    split; [apply Forall_app; split;
              [exact Fl | constructor; [left; reflexivity | constructor]] |].
    rewrite requests_app, Rl. unfold requests. simpl. lia.
  - rewrite (Hone _ _ _ E). cbn [log ticked].
    exists (l ++ [HttpGet url verify_ssl (http env (step wk) url)]).
    split; [rewrite El, <- app_assoc; reflexivity |].
    split; [apply Forall_app; split;
              [exact Fl | constructor; [left; reflexivity | constructor]] |].
    rewrite requests_app, Rl. unfold requests. simpl. lia.
  - discriminate E2.
  - rewrite (Hone _ _ _ E1) in E2. injection E2 as <-.
    cbn [log ticked slept].
    exists (l ++ [HttpGet url verify_ssl (http env (step wk) url);
                  Sleep delay]).
    split; [rewrite El, <- !app_assoc; reflexivity |].
    split; [apply Forall_app; split;
              [exact Fl
              | constructor; [left; reflexivity
                             | constructor; [right; reflexivity | constructor]]] |].
    rewrite requests_app, Rl. unfold requests. simpl. lia.
Qed.

Lemma one_request_send :
  one_request env url verify_ssl (_send_request env url verify_ssl).
Proof.
  intros w r w' H. rewrite send_request_eq in H. congruence.
Qed.

Lemma one_request_not_send :
  one_request env url verify_ssl (not_send_request env url verify_ssl).
Proof.
  intros w r w' H. rewrite not_send_request_eq in H. congruence.
Qed.

End ProbeCount.

Lemma wait_restart_bmc_log env self delay num_sec verify_ssl w r w' :
  let d := default 5 delay in
  let budget := default 300 num_sec in
  0 < d ->
  _wait_restart_bmc env self delay num_sec verify_ssl w = (r, w') ->
  exists l,
    log w' = log w ++ l /\
    Forall (fun e => is_http e = true \/ e = Sleep d) l /\
    1 <= requests l <= 2 * (budget / d + 1).
Proof.
  intros d budget Hd H. unfold _wait_restart_bmc in H.
  fold d budget in H.
  set (v := default false verify_ssl) in *.
  set (url := fmt _ _) in *. clearbody d budget v url.
  pose proof (steady_not_send_request env url v) as Hs1.
  pose proof (steady_send_request env url v) as Hs2.
  unfold bind in H.
  destruct (wait_for (not_send_request env url v) budget d None w)
    as [[[] | e |] w1] eqn:E1;
    destruct (poll_requests env url v _ _ _ _ _ _ Hd Hs1
                (one_request_not_send env url v) E1) as (l1 & El1 & Fl1 & Rl1).
  - destruct (poll_requests env url v _ _ _ _ _ _ Hd Hs2
                (one_request_send env url v) H) as (l2 & El2 & Fl2 & Rl2).
    exists (l1 ++ l2). split; [rewrite El2, El1, <- app_assoc; reflexivity |].
    split; [apply Forall_app; auto |].
    rewrite requests_app. clear - Rl1 Rl2. lia.
  - injection H as <- <-. exists l1. split; [exact El1 |].
    split; [exact Fl1 |]. clear - Rl1. lia.
  - injection H as <- <-. exists l1. split; [exact El1 |].
    split; [exact Fl1 |]. clear - Rl1. lia.
Qed.

(** X13.  [_wait_restart_bmc] does nothing but ask the endpoint and sleep:
    every entry it adds to the log is a GET on [https://<ip_address>] or a
    sleep of [delay] seconds.  With a positive delay it makes at least one
    request and at most [2 * (num_sec / delay + 1)] of them: 122 with the
    default arguments. *)
Theorem wait_restart_bmc_requests env self delay num_sec verify_ssl w r w' :
  let d := default 5 delay in
  let budget := default 300 num_sec in
  0 < d ->
  _wait_restart_bmc env self delay num_sec verify_ssl w = (r, w') ->
  exists l,
    log w' = log w ++ l /\
    Forall (fun e => is_http e = true \/ e = Sleep d) l /\
    1 <= requests l <= 2 * (budget / d + 1).
Proof.
  cbv zeta. apply wait_restart_bmc_log.
Qed.

Lemma wait_restart_bmc_requests_witness :
  let run := _wait_restart_bmc lab_on lab_server None None None boot in
  exists l,
    log (snd run) = log boot ++ l /\
    Forall (fun e => is_http e = true \/ e = Sleep 5) l /\
    1 <= requests l <= 122.
Proof.
  cbv zeta.
  destruct (_wait_restart_bmc lab_on lab_server None None None boot)
    as [r w'] eqn:E.
  assert (Hd : 0 < default 5 (@None nat)) by (simpl; lia).
  exact (wait_restart_bmc_requests lab_on lab_server None None None boot r w'
           Hd E).
Defined.

(** ** The collection: which entities, and which failures *)

Lemma query_In db n e ip :
  In (n, e, ip) (physical_server_query db) <->
  exists ps ems cs hw net,
    joined db ps ems cs hw net /\
    n = ps_name ps /\ e = ems_name ems /\ ip = net_ipaddress net.
Proof.
  unfold physical_server_query, joined. split.
  - intros H.
    apply List.in_flat_map in H as (ps & Hps & H).
    apply List.in_flat_map in H as (ems & Hems & H).
    apply List.filter_In in Hems as [Hems Eems].
    apply List.in_flat_map in H as (cs & Hcs & H).
    apply List.filter_In in Hcs as [Hcs Ecs].
    apply List.in_flat_map in H as (hw & Hhw & H).
    apply List.filter_In in Hhw as [Hhw Ehw].
    apply List.in_flat_map in H as (net & Hnet & H).
    apply List.filter_In in Hnet as [Hnet Enet].
    apply Z.eqb_eq in Eems, Ecs, Ehw, Enet.
    destruct H as [H | []].
    exists ps, ems, cs, hw, net.
    repeat split; try assumption; congruence.
  - intros (ps & ems & cs & hw & net & J & -> & -> & ->).
    destruct J as (Hps & Hems & Hcs & Hhw & Hnet & Eems & Ecs & Ehw & Enet).
    apply Z.eqb_eq in Eems, Ecs, Ehw, Enet.
    apply List.in_flat_map. exists ps. split; [exact Hps |].
    apply List.in_flat_map. exists ems.
    split; [apply List.filter_In; split; assumption |].
    apply List.in_flat_map. exists cs.
    split; [apply List.filter_In; split; assumption |].
    apply List.in_flat_map. exists hw.
    split; [apply List.filter_In; split; assumption |].
    apply List.in_flat_map. exists net.
    split; [apply List.filter_In; split; assumption |].
    left. reflexivity.
Qed.

Section CollectionMore.

Context (get_crud_by_name : string -> Res Provider).

Lemma instantiate_rows_In prov rows :
  forall servers,
  instantiate_rows get_crud_by_name prov rows = Ok servers ->
  forall s, In s servers <->
    exists (row : query_row) p,
      In row rows /\
      provider_or_crud get_crud_by_name prov row.1.2 = Ok p /\
      s = instantiate row.1.1 row.2 p.
Proof.
  induction rows as [| [[nm ems] ip] rows IH]; simpl; intros servers H s.
  - injection H as <-. simpl. split; [intros [] | intros (row & p & [] & _)].
  - destruct (provider_or_crud get_crud_by_name prov ems) as [p | e |] eqn:Ep;
      simpl in H; try discriminate.
    destruct (instantiate_rows get_crud_by_name prov rows) as [rest | e |];
      simpl in H; try discriminate.
    injection H as <-. simpl. rewrite (IH rest eq_refl s). split.
    + intros [<- | (row & q & Hr & Hq & Es)].
      * exists (nm, ems, ip), p. auto.
      * exists row, q. auto.
    + intros (row & q & [<- | Hr] & Hq & Es).
      * left. simpl in Hq, Es. rewrite Ep in Hq. injection Hq as <-.
        symmetry. exact Es.
      * right. exists row, q. auto.
Qed.


Lemma instantiate_rows_raises rows e :
  instantiate_rows get_crud_by_name None rows = Raise e <->
  exists pre (row : query_row) post,
    rows = pre ++ row :: post /\
    Forall (looked_up get_crud_by_name) pre /\
    get_crud_by_name row.1.2 = Raise e.
Proof.
  induction rows as [| [[nm ems] ip] rows IH]; simpl.
  - split; [discriminate |].
    intros (pre & row & post & E & _). destruct pre; discriminate E.
  - split.
    + intros H.
      destruct (get_crud_by_name ems) as [p | e0 |] eqn:Ep; simpl in H.
      * destruct (instantiate_rows get_crud_by_name None rows)
          as [rest | e1 |] eqn:Er; simpl in H; try discriminate.
        assert (He : e1 = e) by congruence. subst e1.
        destruct (proj1 IH eq_refl) as (pre & row & post & E & Hpre & Hrow).
        exists ((nm, ems, ip) :: pre), row, post.
        split; [rewrite E; reflexivity |].
        split; [constructor; [exists p; exact Ep | exact Hpre] | exact Hrow].
      * assert (He : e0 = e) by congruence. subst e0.
        exists [], (nm, ems, ip), rows.
        split; [reflexivity |]. split; [constructor | exact Ep].
      * discriminate.
    + intros (pre & row & post & E & Hpre & Hrow).
      destruct pre as [| r0 pre]; simpl in E.
      * injection E as <- <-. simpl in Hrow. rewrite Hrow. reflexivity.
      * injection E as <- ->.
        inversion Hpre as [| ? ? [p Hp] Hpre']; subst. simpl in Hp.
        rewrite Hp. simpl.
        assert (Hr : instantiate_rows get_crud_by_name None (pre ++ row :: post)
                     = Raise e)
          by (apply IH; exists pre, row, post; auto).
        rewrite Hr. reflexivity.
Qed.

Lemma first_named_raises ph_name rows e :
  first_named get_crud_by_name None ph_name rows = Raise e <->
  exists row : query_row,
    List.find (fun row : query_row => String.eqb ph_name row.1.1) rows
      = Some row /\
    get_crud_by_name row.1.2 = Raise e.
Proof.
  induction rows as [| [[nm ems] ip] rows IH]; simpl.
  - split; [discriminate | intros (row & E & _); discriminate E].
  - destruct (String.eqb ph_name nm); [| exact IH].
    split.
    + intros H. exists (nm, ems, ip). split; [reflexivity |]. simpl.
      destruct (get_crud_by_name ems) as [p | e0 |]; simpl in H;
        congruence.
    + intros (row & E & Hr). injection E as <-. simpl in Hr.
      rewrite Hr. reflexivity.
Qed.

End CollectionMore.

(** X14.  The entities of [all] are exactly the complete chains of the
    database.  When [all] returns, an entity is in its list if and only if
    there are a server row, a management-system row, a computer-system row,
    a hardware row and a network row linked by the four join conditions
    (the last one linking the hardware's id to the network's id), the
    management system resolves to the entity's provider (by the filter,
    whose name it must bear, or by [get_crud_by_name]), and the entity has
    the server's name and the network's address.  A server that lacks one
    of the rows is in no list. *)
Theorem all_entities_are_joined_rows
  (get_crud_by_name : string -> Res Provider) self provider servers s :
  all get_crud_by_name self provider = Ok servers ->
  In s servers <->
  exists ps ems cs hw net p,
    joined (appliance_db self) ps ems cs hw net /\
    resolved get_crud_by_name self (ems_name ems) p /\
    s = instantiate (ps_name ps) (net_ipaddress net) p.
Proof.
  intros H. unfold all in H. unfold resolved.
  destruct (filters self !! "provider") as [fp |] eqn:Ef.
  - rewrite (instantiate_rows_In _ _ _ _ H s). split.
    + intros ([[n e] ip] & p & Hr & Hp & Es). simpl in Hp, Es.
      injection Hp as <-.
      unfold filter_by_ems in Hr. apply List.filter_In in Hr as [Hr Hn].
      simpl in Hn. apply String.eqb_eq in Hn.
      apply query_In in Hr
        as (ps & ems & cs & hw & net & J & -> & -> & ->).
      exists ps, ems, cs, hw, net, fp. auto.
    + intros (ps & ems & cs & hw & net & p & J & [Hn Hp] & Es).
      exists (ps_name ps, ems_name ems, net_ipaddress net), p.
      split; [| split; [simpl; congruence | exact Es]].
      unfold filter_by_ems. apply List.filter_In. split.
      * apply query_In. exists ps, ems, cs, hw, net. auto.
      * simpl. apply String.eqb_eq. exact Hn.
  - rewrite (instantiate_rows_In _ _ _ _ H s). split.
    + intros ([[n e] ip] & p & Hr & Hp & Es). simpl in Hp, Es.
      apply query_In in Hr
        as (ps & ems & cs & hw & net & J & -> & -> & ->).
      exists ps, ems, cs, hw, net, p. auto.
    + intros (ps & ems & cs & hw & net & p & J & Hp & Es).
      exists (ps_name ps, ems_name ems, net_ipaddress net), p.
      split; [| split; [exact Hp | exact Es]].
      apply query_In. exists ps, ems, cs, hw, net. auto.
Qed.

Lemma all_entities_are_joined_rows_witness :
  In lab_server [lab_server] <->
  exists ps ems cs hw net p,
    joined lab_db ps ems cs hw net /\
    resolved lab_crud lab_collection (ems_name ems) p /\
    lab_server = instantiate (ps_name ps) (net_ipaddress net) p.
Proof.
  exact (all_entities_are_joined_rows lab_crud lab_collection None
           [lab_server] lab_server eq_refl).
Defined.



(** X16.  Without a provider filter the two methods fail differently.
    [all] raises what [get_crud_by_name] raises for the first row of the
    join whose management system it does not know, and only that;
    [find_by] looks up only the first row that bears the name, so it raises
    exactly when the lookup for that one row does -- rows before it, and
    rows of other names, are never looked up. *)
Theorem unfiltered_lookup_failures
  (get_crud_by_name : string -> Res Provider) self provider ph_name e :
  let rows := physical_server_query (appliance_db self) in
  filters self !! "provider" = None ->
  (all get_crud_by_name self provider = Raise e <->
   exists pre (row : query_row) post,
     rows = pre ++ row :: post /\
     Forall (looked_up get_crud_by_name) pre /\
     get_crud_by_name row.1.2 = Raise e) /\
  (find_by get_crud_by_name self provider ph_name = Raise e <->
   exists row : query_row,
     List.find (fun row : query_row => String.eqb ph_name row.1.1) rows
       = Some row /\
     get_crud_by_name row.1.2 = Raise e).
Proof.
  cbv zeta. intros Hf. unfold all, find_by. rewrite Hf. split.
  - apply instantiate_rows_raises.
  - apply first_named_raises.
Qed.

Lemma unfiltered_lookup_failures_witness :
  all lab_no_crud lab_collection None = Raise (KeyError "lenovo") /\
  find_by lab_no_crud lab_collection None "srv2" = Ok None.
Proof.
  destruct (unfiltered_lookup_failures lab_no_crud lab_collection None "srv2"
              (KeyError "lenovo") eq_refl) as [Ha _].
  split; [| reflexivity].
  apply Ha. exists [], ("srv1", "lenovo", Some "10.0.0.1"), [].
  split; [reflexivity |]. split; [constructor | reflexivity].
Defined.

(** ** The bulk actions of the collection *)

Section BulkFacts.

Context (env : Env).

Lemma get_entity_eq nm w :
  get_entity env nm w =
  if on_some_page nm (listing env (step w))
  then (Ok tt, ticked env (EntityLookup nm true) w)
  else (Raise ItemNotFound, ticked env (EntityLookup nm false) w).
Proof.
  unfold get_entity, bind, interact, ret, raise, ticked.
  destruct (on_some_page nm (listing env (step w))); reflexivity.
Qed.

Lemma check_rows_run servers :
  forall checked w r w',
  check_rows env servers checked w = (r, w') ->
  (r = Ok (checked ++ map name servers) /\
   log w' = log w ++ lookups_found servers) \/
  (r = Raise ItemNotFound /\
   exists found s rest,
     servers = found ++ s :: rest /\
     log w' = log w ++ lookups_found found ++ [EntityLookup (name s) false]).
Proof.
  induction servers as [| s servers IH]; intros checked w r w' H.
  - simpl in H. unfold ret in H. injection H as <- <-. left.
    simpl. rewrite !app_nil_r. auto.
  - cbn [check_rows] in H. unfold bind at 1 in H.
    rewrite get_entity_eq in H.
    destruct (on_some_page (name s) (listing env (step w))).
    + unfold bind, check in H. cbn [step now log ticked] in H.
      apply IH in H. cbn [log] in H.
      destruct H as [[-> El] | [-> (found & s' & rest & -> & El)]].
      * left. split.
        -- simpl. rewrite <- app_assoc. reflexivity.
        -- rewrite El. unfold lookups_found. simpl.
           rewrite <- app_assoc. reflexivity.
      * right. split; [reflexivity |].
        exists (s :: found), s', rest. split; [reflexivity |].
        rewrite El. unfold lookups_found. simpl.
        rewrite <- !app_assoc. reflexivity.
    + injection H as <- <-. right. split; [reflexivity |].
      exists [], s, servers. split; [reflexivity |].
      reflexivity.
Qed.

Lemma select_entity_rows_run servers w r w' :
  select_entity_rows env servers w = (r, w') ->
  (r = Ok (PhysicalServersView, map name servers) /\
   log w' = log w ++ [servers_menu] ++ lookups_found servers) \/
  (r = Raise ItemNotFound /\
   exists found s rest,
     servers = found ++ s :: rest /\
     log w' = log w ++ [servers_menu] ++ lookups_found found
                ++ [EntityLookup (name s) false]).
Proof.
  unfold select_entity_rows, navigate_to_All, act, interact, bind at 1 2.
  unfold ret at 1. cbn [step now log]. intros H. unfold bind in H.
  destruct (check_rows env servers [] _) as [[checked | e |] w1] eqn:E;
    apply check_rows_run in E; cbn [log] in E;
    destruct E as [[Er El] | [Er (found & s & rest & Es & El)]];
    try discriminate Er.
  - unfold ret in H. injection H as <- <-. left.
    injection Er as ->. split; [reflexivity |].
    rewrite El, <- app_assoc. reflexivity.
  - injection H as <- <-. right. injection Er as ->.
    split; [reflexivity |].
    exists found, s, rest. split; [exact Es |].
    rewrite El, <- !app_assoc. reflexivity.
Qed.

End BulkFacts.

(** X18.  The bulk [power_on] and [power_off] of the collection are all or
    nothing.  Either every server given is found in the listing: then the
    rows ticked are the names of the servers in the order given, and the
    toolbar item (Power On or Power Off, with the alert handled) is selected
    once, as the last thing done.  Or the call raises [ItemNotFound] at the
    first server the listing does not show: then the servers before it have
    been looked up and the toolbar has not been touched. *)
Theorem bulk_power_all_or_nothing env a servers w r w' :
  invoke_bulk env a servers w = (r, w') ->
  (r = Ok tt /\
   (exists wk, select_entity_rows env servers w
                 = (Ok (PhysicalServersView, map name servers), wk)) /\
   log w' = log w ++ [servers_menu] ++ lookups_found servers
              ++ [ItemSelect "Power" (bulk_item a) true]) \/
  (r = Raise ItemNotFound /\
   exists found s rest,
     servers = found ++ s :: rest /\
     log w' = log w ++ [servers_menu] ++ lookups_found found
                ++ [EntityLookup (name s) false]).
Proof.
  intros H.
  assert (H' : bind (select_entity_rows env servers)
                 (fun view => item_select env view.1 "Power" (bulk_item a) true)
                 w = (r, w'))
    by (destruct a; exact H).
  clear H. unfold bind in H'.
  destruct (select_entity_rows env servers w) as [[view | e |] wk] eqn:E;
    destruct (select_entity_rows_run env _ _ _ _ E)
      as [[Er El] | [Er (found & s & rest & Es & El)]];
    try discriminate Er.
  - unfold item_select, act, interact in H'. injection H' as <- <-.
    left. split; [reflexivity |]. injection Er as ->.
    split; [exists wk; reflexivity |].
    cbn [log]. rewrite El, <- !app_assoc. reflexivity.
  - injection H' as <- <-. right. injection Er as ->.
    split; [reflexivity |].
    exists found, s, rest. auto.
Qed.

Lemma bulk_power_all_or_nothing_witness :
  let run := invoke_bulk lab_on BulkPowerOff
               [lab_server; instantiate "srv9" None lab_provider; lab_server]
               boot in
  fst run = Raise ItemNotFound /\
  log (snd run) = [servers_menu; EntityLookup "srv1" true;
                   EntityLookup "srv9" false].
Proof.
  cbv zeta.
  destruct (invoke_bulk lab_on BulkPowerOff
              [lab_server; instantiate "srv9" None lab_provider; lab_server]
              boot) as [r w'] eqn:E.
  assert (Hr : r = Raise ItemNotFound) by (vm_compute in E; congruence).
  assert (Hl : log w' = [servers_menu; EntityLookup "srv1" true;
                         EntityLookup "srv9" false])
    by (vm_compute in E; injection E as _ <-; reflexivity).
  destruct (bulk_power_all_or_nothing lab_on BulkPowerOff _ boot r w' E)
    as [[Hok _] | [_ _]]; [congruence |].
  split; [exact Hr | exact Hl].
Defined.

(** ** The fixture mgmt_sys_api_clients *)

Section FixtureFacts.

Context {Client : Type} (get_mgmt : string -> Res Client).

Lemma collect_clients_ok keys :
  forall acc clients,
  collect_clients get_mgmt keys acc = Ok clients ->
  forall k c,
    clients !! k = Some c <->
    (In k keys /\ get_mgmt k = Ok c) \/ (~ In k keys /\ acc !! k = Some c).
Proof.
  induction keys as [| k0 keys IH]; simpl; intros acc clients H k c.
  - injection H as <-. split; [auto | intros [[[] _] | [_ H]]; exact H].
  - destruct (get_mgmt k0) as [c0 | e |] eqn:E0; simpl in H; try discriminate.
    rewrite (IH _ _ H k c). split.
    + intros [[Hin Hk] | [Hn Hl]]; [left; auto |].
      destruct (decide (k0 = k)) as [-> | Hne].
      * rewrite lookup_insert_eq in Hl. left. split; [auto | congruence].
      * rewrite lookup_insert_ne in Hl by exact Hne.
        right. split; [| exact Hl]. intros [? | ?]; auto.
    + intros [[[-> | Hin] Hk] | [Hn Hl]].
      * destruct (in_dec string_dec k keys) as [Hin | Hn]; [left; auto |].
        right. split; [exact Hn |]. rewrite lookup_insert_eq. congruence.
      * left. auto.
      * right. split; [tauto |].
        rewrite lookup_insert_ne by (intros ->; tauto). exact Hl.
Qed.

Lemma collect_clients_raises keys e :
  forall acc,
  collect_clients get_mgmt keys acc = Raise e <->
  exists pre k post,
    keys = pre ++ k :: post /\
    Forall (has_client get_mgmt) pre /\
    get_mgmt k = Raise e.
Proof.
  induction keys as [| k0 keys IH]; simpl; intros acc.
  - split; [discriminate |].
    intros (pre & k & post & E & _). destruct pre; discriminate E.
  - destruct (get_mgmt k0) as [c0 | e0 |] eqn:E0; simpl.
    + rewrite IH. split.
      * intros (pre & k & post & -> & Hpre & Hk).
        exists (k0 :: pre), k, post. split; [reflexivity |].
        split; [constructor; [exists c0; exact E0 | exact Hpre] | exact Hk].
      * intros (pre & k & post & E & Hpre & Hk).
        destruct pre as [| k1 pre]; simpl in E.
        -- injection E as <- <-. congruence.
        -- injection E as <- ->. inversion Hpre; subst.
           exists pre, k, post. auto.
    + split.
      * intros H. assert (He : e0 = e) by congruence. subst e0.
        exists [], k0, keys. split; [reflexivity |].
        split; [constructor | exact E0].
      * intros (pre & k & post & E & Hpre & Hk).
        destruct pre as [| k1 pre]; simpl in E.
        -- injection E as <- <-. congruence.
        -- injection E as <- ->. inversion Hpre as [| ? ? [c Hc] ?]; subst.
           congruence.
    + split; [discriminate |].
      intros (pre & k & post & E & Hpre & Hk).
      destruct pre as [| k1 pre]; simpl in E.
      * injection E as <- <-. congruence.
      * injection E as <- ->. inversion Hpre as [| ? ? [c Hc] ?]; subst.
        congruence.
Qed.

End FixtureFacts.

(** X19.  The fixture [mgmt_sys_api_clients] returns a dictionary with
    exactly the keys of [cfme_data['management_systems']], each mapped to
    what [get_mgmt] returned for it.  It raises what [get_mgmt] raises for
    the first key whose client cannot be built, and nothing else: a failure
    is not skipped, and no partial dictionary is returned. *)
Theorem mgmt_sys_api_clients_all_keys {Client : Type}
  (get_mgmt : string -> Res Client) cfme_data keys :
  cfme_data !! "management_systems" = Some keys ->
  (forall clients,
     mgmt_sys_api_clients get_mgmt cfme_data = Ok clients ->
     forall k c, clients !! k = Some c <-> In k keys /\ get_mgmt k = Ok c) /\
  (forall e,
     mgmt_sys_api_clients get_mgmt cfme_data = Raise e <->
     exists pre k post,
       keys = pre ++ k :: post /\
       Forall (has_client get_mgmt) pre /\
       get_mgmt k = Raise e) /\
  (Forall (has_client get_mgmt) keys ->
   exists clients, mgmt_sys_api_clients get_mgmt cfme_data = Ok clients).
Proof.
  intros Hk. unfold mgmt_sys_api_clients. rewrite Hk. split; [| split].
  - intros clients H k c.
    rewrite (collect_clients_ok get_mgmt _ _ _ H k c). split.
    + intros [H1 | [_ H2]]; [exact H1 |].
      rewrite lookup_empty in H2. discriminate.
    + auto.
  - intros e. apply collect_clients_raises.
  - generalize (∅ : gmap string Client).
    clear Hk. induction keys as [| k0 keys IH]; intros acc; simpl.
    + intros _. exists acc. reflexivity.
    + intros Hall. inversion Hall as [| ? ? [c Hc] Hrest]; subst.
      rewrite Hc. simpl. apply IH. exact Hrest.
Qed.

Lemma mgmt_sys_api_clients_all_keys_witness :
  mgmt_sys_api_clients lab_get_mgmt lab_cfme_data = Raise ConnectionError.
Proof.
  destruct (mgmt_sys_api_clients_all_keys lab_get_mgmt lab_cfme_data
              ["lenovo"; "vsphere"] eq_refl) as (_ & Hr & _).
  apply Hr. exists ["lenovo"], "vsphere", [].
  split; [reflexivity |].
  split; [constructor; [exists "lenovo"; reflexivity | constructor]
         | reflexivity].
Defined.

(** ** restart_management_controller *)

Lemma polls_only_not_http e : polls_only e = true -> is_http e = false.
Proof. destruct e; simpl; congruence. Qed.

Lemma adds_execute_action_button env self button option kwargs :
  (forall d, kw_desired_state kwargs = Some d -> truthy d = true ->
             determined env self (kw_target kwargs) NoArgs) ->
  adds (fun e => is_http e = false)
       (_execute_action_button env self button option kwargs).
Proof.
  intros Hdet.
  pose proof (adds_weaken _ (fun e => is_http e = false) _
                polls_only_not_http (adds_navigate_to_Details env self)) as Hn.
  pose proof (fun view =>
                adds_weaken _ (fun e => is_http e = false) _
                  polls_only_not_http
                  (adds_after_button env self kwargs view Hdet)) as Ha.
  unfold _execute_action_button, _execute_button, item_select, act.
  apply adds_bind.
  - adds_tac; reflexivity.
  - intros view. apply Ha.
Qed.

(** X20.  [restart_management_controller] asks the management controller
    only after the toolbar action is over.  Provided that, when a desired
    state is given, the call of the target is one the module decides (the
    target is missing, names a read accessor, or names nothing the entity
    has), what the method adds to the log splits in two: the entries of the
    action, none of which is a request, and then requests to the controller
    with sleeps of 5 seconds between them, at most 122 requests.  There is
    a second part only if [wait_restart_bmc] was set and the action
    returned; an action that raised leaves the controller alone. *)
Theorem restart_bmc_asks_after_action env self wait_restart_bmc kwargs w r w' :
  (forall d, kw_desired_state kwargs = Some d -> truthy d = true ->
             determined env self (kw_target kwargs) NoArgs) ->
  restart_management_controller env self wait_restart_bmc kwargs w = (r, w') ->
  exists l1 l2,
    log w' = log w ++ l1 ++ l2 /\
    Forall (fun e => is_http e = false) l1 /\
    Forall (fun e => is_http e = true \/ e = Sleep 5) l2 /\
    requests l2 <= 122 /\
    (l2 <> [] ->
     wait_restart_bmc = true /\
     exists w1,
       _execute_action_button env self "Power" "Restart Management Controller"
         kwargs w = (Ok tt, w1) /\
       log w1 = log w ++ l1).
Proof.
  intros Hdet H. unfold restart_management_controller, bind in H.
  destruct (_execute_action_button env self "Power"
              "Restart Management Controller" kwargs w)
    as [[[] | e |] w1] eqn:E;
    destruct (adds_execute_action_button _ _ _ _ _ Hdet _ _ _ E)
      as (l1 & El1 & F1).
  - destruct wait_restart_bmc.
    + assert (Hd : 0 < default 5 (@None nat)) by (simpl; lia).
      destruct (wait_restart_bmc_log env self None None None w1 r w' Hd H)
        as (l2 & El2 & F2 & R2).
      exists l1, l2. split; [rewrite El2, El1, <- app_assoc; reflexivity |].
      split; [exact F1 |]. split; [exact F2 |].
      split; [simpl in R2; lia |].
      intros _. split; [reflexivity |]. exists w1. auto.
    + unfold ret in H. injection H as <- <-.
      exists l1, []. rewrite app_nil_r.
      repeat split; try assumption; try constructor.
      * unfold requests. simpl. lia.
      * congruence.
      * congruence.
  - injection H as <- <-. exists l1, []. rewrite app_nil_r.
    repeat split; try assumption; try constructor.
    + unfold requests. simpl. lia.
    + congruence.
    + congruence.
  - injection H as <- <-. exists l1, []. rewrite app_nil_r.
    repeat split; try assumption; try constructor.
    + unfold requests. simpl. lia.
    + congruence.
    + congruence.
Qed.

Lemma restart_bmc_asks_after_action_witness :
  let kwargs :=
    {| kw_handle_alert := None; kw_target := None; kw_provider := None;
       kw_desired_state := None; kw_timeout := None; kw_delay := None |} in
  let run := restart_management_controller lab_on lab_server true kwargs boot in
  exists l1 l2,
    log (snd run) = log boot ++ l1 ++ l2 /\
    Forall (fun e => is_http e = false) l1 /\
    Forall (fun e => is_http e = true \/ e = Sleep 5) l2 /\
    requests l2 <= 122.
Proof.
  cbv zeta.
  destruct (restart_management_controller lab_on lab_server true
              {| kw_handle_alert := None; kw_target := None;
                 kw_provider := None; kw_desired_state := None;
                 kw_timeout := None; kw_delay := None |} boot)
    as [r w'] eqn:E.
  destruct (restart_bmc_asks_after_action lab_on lab_server true
              {| kw_handle_alert := None; kw_target := None;
                 kw_provider := None; kw_desired_state := None;
                 kw_timeout := None; kw_delay := None |} boot r w'
              (fun _ _ _ => I) E)
    as (l1 & l2 & El & F1 & F2 & R2 & _).
  exists l1, l2. auto.
Defined.
